(** * GhostType backend: the per-connection streaming orchestrator

    A shallow embedding of [backend/server.py], [backend/agent.py],
    [backend/config.py], [backend/mcp_manager.py], [agentcore/server.py]
    and [agentcore/agentcore_app.py], and the properties of the
    streaming endpoint, the agent-handle cache, the cancellation
    signal, the message builders, the MCP manager and the making of an
    agent.

    Conventions.
    - Python [str] values are [string]s; the truth value of a string is
      "non-empty" ([truthy]).
    - [dict.get(key)] on a parsed request is a record field of type
      [option string]: [None] is an absent key.
    - Wall-clock readings ([time.monotonic()]) and durations are integers
      in milliseconds.
    - The generative agent is opaque: what it does (callback invocations,
      return value, exception) is supplied by the environment as events. *)

From Stdlib Require Import ZArith Lia Ascii.
From stdpp Require Import base decidable option list strings gmap.

Local Open Scope Z_scope.

(** ** Python helpers *)

Module Py.

(** [bool(s)] for a string. *)
Definition truthy (s : string) : bool :=
  match s with
  | EmptyString => false
  | String _ _ => true
  end.

(** [a or b] on strings. *)
Definition or_else (a b : string) : string :=
  if truthy a then a else b.

(** [d.get(key, default)] once the field has been looked up. *)
Definition get_default (field : option string) (dflt : string) : string :=
  default dflt field.

(** [str.isascii()] *)
Fixpoint isascii (s : string) : bool :=
  match s with
  | EmptyString => true
  | String c s' => (nat_of_ascii c <? 128)%nat && isascii s'
  end.

(** [str.lower()] on a string for which [isascii] holds. On other
    strings Python also lowers the letters outside ASCII, some of
    them, like the Kelvin sign, to ASCII letters; statements that
    depend on the letters of a string take it from the ASCII
    strings. *)
Definition lower_ascii (c : ascii) : ascii :=
  let n := nat_of_ascii c in
  if ((65 <=? n)%nat && (n <=? 90)%nat)%bool then ascii_of_nat (n + 32) else c.

Fixpoint lower (s : string) : string :=
  match s with
  | EmptyString => EmptyString
  | String c s' => String (lower_ascii c) (lower s')
  end.

(** [sub in s]. *)
Fixpoint contains (sub s : string) : bool :=
  if String.prefix sub s then true
  else match s with
       | EmptyString => false
       | String _ s' => contains sub s'
       end.

(** The line feed and the double quote of the f-string templates. *)
Definition nl : string := String (ascii_of_nat 10) EmptyString.
Definition dq : string := String (ascii_of_nat 34) EmptyString.

(** Exceptions, by the [except] clause that catches them in
    [generate]; [Other] carries [type(e).__name__]. *)
Inductive exn_class :=
| CancellationError
| TimeoutError
| WebSocketDisconnect
| Other (etype : string).

Record exn := Exn { exn_class_of : exn_class; exn_msg : string }.

(** A call either returns or raises. *)
Inductive result (A : Type) :=
| Returned (a : A)
| Raised (e : exn).
Global Arguments Returned {A} a.
Global Arguments Raised {A} e.

End Py.

(** ** config.py *)

Module Config.

Record Config := {
  model_provider : string;
  model_id : string;
  aws_profile : string;
  aws_region : string
}.

(** The values of an empty environment. *)
Definition defaults : Config := {|
  model_provider := "bedrock";
  model_id := "global.anthropic.claude-opus-4-6-v1";
  aws_profile := "";
  aws_region := "us-west-2"
|}.

End Config.

(** ** agent.py *)

Module Agent.
Import Py.

(** The [config] object of a request, key by key. *)
Record config_dict := {
  cd_provider : option string;
  cd_model_id : option string;
  cd_aws_profile : option string;
  cd_aws_region : option string
}.

Definition cd_is_empty (d : config_dict) : bool :=
  match cd_provider d, cd_model_id d, cd_aws_profile d, cd_aws_region d with
  | None, None, None, None => true
  | _, _, _, _ => false
  end.

Record ModelConfig := {
  provider : string;
  model_id : string;
  aws_profile : string;
  aws_region : string
}.

Global Instance ModelConfig_eq_dec : EqDecision ModelConfig.
Proof. solve_decision. Defined.

Definition ModelConfig_default : ModelConfig :=
  {| provider := ""; model_id := ""; aws_profile := ""; aws_region := "" |}.

(** [ModelConfig.from_request]: [not data] holds for a missing config
    and for an empty dict. *)
Definition from_request (data : option config_dict) : ModelConfig :=
  match data with
  | None => ModelConfig_default
  | Some d =>
      if cd_is_empty d then ModelConfig_default
      else {| provider := get_default (cd_provider d) "";
              model_id := get_default (cd_model_id d) "";
              aws_profile := get_default (cd_aws_profile d) "";
              aws_region := get_default (cd_aws_region d) "" |}
  end.

Section Effective.
Variable config : Config.Config.

Definition effective_provider (mc : ModelConfig) : string :=
  lower (or_else (provider mc) (Config.model_provider config)).

Definition effective_model_id (mc : ModelConfig) : string :=
  or_else (model_id mc) (Config.model_id config).

Definition effective_aws_profile (mc : ModelConfig) : string :=
  or_else (aws_profile mc) (Config.aws_profile config).

Definition effective_aws_region (mc : ModelConfig) : string :=
  or_else (aws_region mc) (Config.aws_region config).

(** [create_model] and [create_agent] as far as their own code
    decides: only the bedrock provider is known, any other raises
    [ValueError] before a library is called. What the library
    constructors they call then do ([boto3.Session], [BedrockModel],
    the read of the prompt file, [Agent]) belongs to the caller's
    environment: an event of the connection, the agent oracle of the
    single-shot surfaces. *)
Definition create_model (mc : ModelConfig) : result unit :=
  let provider := effective_provider mc in
  if bool_decide (provider = "bedrock") then Returned tt
  else Raised (Exn (Other "ValueError") ("Unknown model provider: " +:+ provider)).

(** [create_agent] builds the model first, so it raises when
    [create_model] does. *)
Definition create_agent (mc : ModelConfig) (mode_type : string) : result unit :=
  create_model mc.
End Effective.

End Agent.

(** ** The request, as both surfaces read it *)

Module Request.

(** The [screenshot] field with the outcome of [base64.b64decode] on
    it. *)
Inductive screenshot :=
| ShotEmpty
| ShotUndecodable
| ShotImage (image_bytes : list Byte.byte).

Record request := {
  type : option string;
  prompt : option string;
  context : option string;
  mode : option string;
  mode_type : option string;
  screenshot_b64 : option screenshot;
  config : option Agent.config_dict
}.

End Request.

(** ** Message building (server.py, repeated in both agentcore files) *)

Module Message.
Import Py.

Definition classify_mode_type (mode context prompt : string) : string :=
  if bool_decide (mode ∈ ["rewrite"; "fix"; "translate"]) then "draft"
  else if truthy context then "draft"
  else "chat".

Definition build_message (prompt context mode : string) : string :=
  if bool_decide (mode = "rewrite") && truthy context then
    "Rewrite the following text:" +:+ nl +:+ nl +:+ context
      +:+ nl +:+ nl +:+ "Instructions: " +:+ prompt
  else if bool_decide (mode = "fix") && truthy context then
    "Fix grammar and spelling in the following text:" +:+ nl +:+ nl +:+ context
  else if bool_decide (mode = "translate") && truthy context then
    "Translate the following text. " +:+ prompt +:+ nl +:+ nl +:+ context
  else if truthy context then
    "Context (selected text from user's application):" +:+ nl
      +:+ dq +:+ dq +:+ dq +:+ nl +:+ context +:+ nl +:+ dq +:+ dq +:+ dq
      +:+ nl +:+ nl +:+ "Task: " +:+ prompt
  else prompt.

(** What is handed to the agent: the text alone, or an image block
    followed by a text block. *)
Inductive user_message :=
| Text (text : string)
| ImageThenText (image_bytes : list Byte.byte) (text : string).

Definition build_multimodal_message (text : string)
    (screenshot_b64 : option Request.screenshot) : user_message :=
  match screenshot_b64 with
  | None | Some Request.ShotEmpty => Text text
  | Some Request.ShotUndecodable => Text text
  | Some (Request.ShotImage image_bytes) => ImageThenText image_bytes text
  end.

(** [request.get("mode_type") or classify_mode_type(mode, context, prompt)] *)
Definition request_mode_type (r : Request.request) : string :=
  let prompt := get_default (Request.prompt r) "" in
  let context := get_default (Request.context r) "" in
  let mode := get_default (Request.mode r) "generate" in
  match Request.mode_type r with
  | Some m => if truthy m then m else classify_mode_type mode context prompt
  | None => classify_mode_type mode context prompt
  end.

Definition _friendly_error (e : exn) : string :=
  let msg := exn_msg e in
  let etype :=
    match exn_class_of e with
    | CancellationError => "CancellationError"
    | TimeoutError => "TimeoutError"
    | WebSocketDisconnect => "WebSocketDisconnect"
    | Other n => n
    end in
  if contains "rate" (lower msg) && contains "limit" (lower msg) then
    "Rate limit exceeded. Please wait a moment and try again."
  else if contains "authentication" (lower msg) || contains "credentials" (lower msg) then
    "Authentication error. Check your AWS credentials."
  else if contains "timeout" (lower msg) then
    "Request timed out. The model may be overloaded — try again."
  else if contains "ExpiredTokenException" msg || contains "ExpiredToken" msg then
    "AWS credentials expired. Run tokenmaster to refresh."
  else etype +:+ ": " +:+ msg.

End Message.

(** ** server.py: the streaming endpoint *)

Module Server.
Import Py Message.

(** Durations, in milliseconds: [GENERATION_TIMEOUT = 120], the
    [1.0] slice of the cancel listener's [asyncio.wait], the [5.0] of
    the wait that follows a timeout, and the [5.0] of
    [future.result]. *)
Definition GENERATION_TIMEOUT : Z := 120000.
Definition LISTEN_SLICE : Z := 1000.
Definition GRACE_PERIOD : Z := 5000.
Definition SEND_TIMEOUT : Z := 5000.

(** *** Outbound messages *)

Inductive out_msg :=
| Token (content : string)
| Done (content : string)
| Error (content : string)
| Cancelled
| ConversationReset.

(** A [send_text] call, in the order the calls are made on the
    connection, with the turn it was made for ([None] for replies
    made outside any turn). *)
Record sent := Sent { for_turn : option nat; msg : out_msg }.

Definition is_token (m : out_msg) : bool :=
  match m with Token _ => true | _ => false end.

Definition is_terminal (m : out_msg) : bool :=
  match m with Done _ | Error _ | Cancelled => true | _ => false end.

(** *** StreamingCallbackHandler *)

Record StreamingCallbackHandler := {
  token_count : nat;
  first_token_time : option Z;
  start_time : Z
}.

Definition new_handler (now : Z) : StreamingCallbackHandler :=
  {| token_count := 0; first_token_time := None; start_time := now |}.

(** [kwargs.get("data", "")] and [kwargs.get("complete", False)]. *)
Record kwargs := { kw_data : option string; kw_complete : option bool }.

(** What becomes of a send scheduled on the event loop. *)
Inductive send_outcome :=
| SendCompletes (after : Z)
| SendRaises (after : Z) (e : exn)
| SendNeverCompletes.

(** [future.result(timeout)]: the time spent waiting and what the
    call gives. *)
Definition future_result (timeout : Z) (o : send_outcome) : Z * result unit :=
  let timed_out := (timeout, Raised (Exn TimeoutError "")) in
  match o with
  | SendCompletes after =>
      if after <=? timeout then (Z.max 0 after, Returned tt) else timed_out
  | SendRaises after e =>
      if after <=? timeout then (Z.max 0 after, Raised e) else timed_out
  | SendNeverCompletes => timed_out
  end.

(** Is the future done when [future.result(timeout)] gives up. *)
Definition future_done (timeout : Z) (o : send_outcome) : bool :=
  match o with
  | SendCompletes after | SendRaises after _ => after <=? timeout
  | SendNeverCompletes => false
  end.

(** What [_send_ws_message] did: the message whose send it scheduled,
    the time it waited, the warning it logged, if any, and whether it
    returned with the send still pending on the event loop: the
    [except] clause only logs, nothing cancels the future. *)
Record send_report := {
  scheduled : out_msg;
  waited : Z;
  warning : option string;
  left_pending : bool
}.

Definition _send_ws_message (message : out_msg) (o : send_outcome) : send_report :=
  let '(w, r) := future_result SEND_TIMEOUT o in
  {| scheduled := message;
     waited := w;
     warning := match r with
                | Returned _ => None
                | Raised e => Some ("Failed to send WS message: " +:+ exn_msg e)
                end;
     left_pending := negb (future_done SEND_TIMEOUT o) |}.

(** [StreamingCallbackHandler.__call__], on the worker thread, given
    the flag as it reads it and the clock. *)
Definition __call__ (self : StreamingCallbackHandler) (cancel_event : bool)
    (now : Z) (kw : kwargs) (o : send_outcome)
    : result (StreamingCallbackHandler * option send_report) :=
  if cancel_event then
    Raised (Exn CancellationError "Generation cancelled by client")
  else
    let data := get_default (kw_data kw) "" in
    if truthy data then
      let first := match first_token_time self with
                   | None => Some now
                   | Some t => Some t
                   end in
      Returned ({| token_count := S (token_count self);
                   first_token_time := first;
                   start_time := start_time self |},
                Some (_send_ws_message (Token data) o))
    else Returned (self, None).

(** *** The connection *)

(** What [websocket.receive_text()] followed by [json.loads] gives:
    the read raises [WebSocketDisconnect] or another exception;
    [json.loads] raises [JSONDecodeError], with [str(e)], or an
    exception of another type ([RecursionError] on deep nesting,
    [ValueError] on an over-long integer literal), with
    [type(e).__name__] and [str(e)]; or it returns a value that is not
    an object, or an object. An object is a request whose [type],
    [prompt], [context], [mode] and [mode_type] are strings where
    present and whose [config], where present, is an object of
    strings. *)
Inductive frame :=
| Disconnect
| ReadError
| Malformed (err : string)
| LoadsRaises (etype msg : string)
| NonObject (pytype : string)
| Object (r : Request.request).

(** The worker thread of a turn: not yet in [_run_agent], inside the
    call of the agent, inside the callback handler past its test of
    the cancellation signal, or finished. *)
Inductive worker_status :=
| Pending
| Active
| Checked
| Finished (o : result string).

Record worker := {
  w_agent : nat;
  w_message : user_message;
  w_handler : StreamingCallbackHandler;
  w_status : worker_status
}.

(** The locals of [generate] that outlive a turn. *)
Record session := {
  agent : option nat;
  current_config : option Agent.ModelConfig;
  current_mode_type : option string;
  cancel_event : bool
}.

(** Where the coroutine is suspended. *)
Inductive phase :=
| Idle
| Running (turn : nat) (gen_start wait_since : Z)
| Draining (turn : nat) (gen_start wait_since : Z)
| Closed.

Record state := {
  sess : session;
  phase_of : phase;
  clock : Z;
  workers : gmap nat worker;
  next_turn : nat;
  agents_created : nat;
  outbound : list sent;
  log : list string
}.

Definition init (now : Z) : state := {|
  sess := {| agent := None; current_config := None;
             current_mode_type := None; cancel_event := false |};
  phase_of := Idle;
  clock := now;
  workers := ∅;
  next_turn := 0;
  agents_created := 0;
  outbound := [];
  log := []
|}.

(** Field updates. *)
Definition with_sess (f : session → session) (s : state) : state :=
  {| sess := f (sess s); phase_of := phase_of s; clock := clock s;
     workers := workers s; next_turn := next_turn s;
     agents_created := agents_created s; outbound := outbound s; log := log s |}.

Definition with_phase (p : phase) (s : state) : state :=
  {| sess := sess s; phase_of := p; clock := clock s;
     workers := workers s; next_turn := next_turn s;
     agents_created := agents_created s; outbound := outbound s; log := log s |}.

Definition with_clock (c : Z) (s : state) : state :=
  {| sess := sess s; phase_of := phase_of s; clock := c;
     workers := workers s; next_turn := next_turn s;
     agents_created := agents_created s; outbound := outbound s; log := log s |}.

Definition with_worker (t : nat) (w : worker) (s : state) : state :=
  {| sess := sess s; phase_of := phase_of s; clock := clock s;
     workers := <[t := w]> (workers s); next_turn := next_turn s;
     agents_created := agents_created s; outbound := outbound s; log := log s |}.

Definition with_log (l : list string) (s : state) : state :=
  {| sess := sess s; phase_of := phase_of s; clock := clock s;
     workers := workers s; next_turn := next_turn s;
     agents_created := agents_created s; outbound := outbound s; log := l |}.

(** [await websocket.send_text(json.dumps(m))] *)
Definition send_text (turn : option nat) (m : out_msg) (s : state) : state :=
  {| sess := sess s; phase_of := phase_of s; clock := clock s;
     workers := workers s; next_turn := next_turn s;
     agents_created := agents_created s;
     outbound := outbound s ++ [Sent turn m]; log := log s |}.

(** [cancel_event.set()] and [cancel_event.clear()] *)
Definition set_cancel (b : bool) (x : session) : session :=
  {| agent := agent x; current_config := current_config x;
     current_mode_type := current_mode_type x; cancel_event := b |}.

(** [agent = None; current_config = None; current_mode_type = None] *)
Definition reset_agent (x : session) : session :=
  {| agent := None; current_config := None;
     current_mode_type := None; cancel_event := cancel_event x |}.

Definition bind_agent (id : nat) (mc : Agent.ModelConfig) (mt : string)
    (x : session) : session :=
  {| agent := Some id; current_config := Some mc;
     current_mode_type := Some mt; cancel_event := cancel_event x |}.

Definition with_status (st : worker_status) (w : worker) : worker :=
  {| w_agent := w_agent w; w_message := w_message w;
     w_handler := w_handler w; w_status := st |}.

Definition with_handler (h : StreamingCallbackHandler) (w : worker) : worker :=
  {| w_agent := w_agent w; w_message := w_message w;
     w_handler := h; w_status := w_status w |}.

Definition timeout_text : string :=
  "Generation timed out. Try a shorter conversation or start a new one.".

(** *** The turn orchestrator *)

(** What can happen next on a connection; the coroutine of [generate]
    and the worker threads are interleaved one event at a time.
    - [Advance dt]: time passes.
    - [Recv f]: a [receive_text] of the coroutine completes with [f],
      in the outer loop or in the cancel listener.
    - [Poll]: the [asyncio.wait] of the cancel listener returns without
      a frame.
    - [GraceOver]: the [asyncio.wait] that follows the ceiling returns.
    - [WorkerStart t]: the thread of turn [t] enters [_run_agent].
    - [Callback t kw o]: the agent of turn [t] invokes its callback
      handler with [kw], and the invocation runs from its test of the
      cancellation signal to its return with nothing else happening
      in between; [o] is what becomes of the send it schedules.
    - [CallbackCheck t], [CallbackSend t kw o]: the same invocation in
      two steps, between which the coroutine may run: the handler
      tests the signal, then, having found it clear, does the rest.
    - [AgentReturns t r], [AgentRaises t e]: the call of the agent of
      turn [t] returns, [r] being [str(result)], or raises [e].
    - [RecvBuildRaises r e]: a [receive_text] of the outer loop
      completes with the request [r], for which an agent is built,
      and one of the library constructors called by [create_agent]
      ([boto3.Session], [BedrockModel], the read of the prompt file,
      [Agent]) raises [e]. In [Recv] none of them raises.
    An exception raised by the callback handler leaves the agent call
    with that exception, as the handler's docstring has it. *)
Inductive event :=
| Advance (dt : Z)
| Recv (f : frame)
| Poll
| GraceOver
| WorkerStart (turn : nat)
| Callback (turn : nat) (kw : kwargs) (o : send_outcome)
| CallbackCheck (turn : nat)
| CallbackSend (turn : nat) (kw : kwargs) (o : send_outcome)
| AgentReturns (turn : nat) (r : string)
| AgentRaises (turn : nat) (e : exn)
| RecvBuildRaises (r : Request.request) (e : exn).

Definition status_of (s : state) (t : nat) : option worker_status :=
  w_status <$> workers s !! t.

(** [_run_agent], up to the call of the agent: the thread either
    raises at once or is inside [agent(message)]. *)
Definition _run_agent (cancel_event : bool) : worker_status :=
  if cancel_event then
    Finished (Raised (Exn CancellationError "Generation cancelled before start"))
  else Active.

(** How the [try] of a turn ends, given what its body produced:
    the result of the agent task or the exception that left the
    body. *)
Definition resolve (t : nat) (o : result string) (s : state) : state :=
  match o with
  | Returned full_response =>
      with_phase Idle (send_text (Some t) (Done full_response) s)
  | Raised e =>
      match exn_class_of e with
      | CancellationError =>
          with_phase Idle (send_text (Some t) Cancelled s)
      | TimeoutError =>
          with_phase Idle
            (send_text (Some t) (Error timeout_text) (with_sess reset_agent s))
      | WebSocketDisconnect => with_phase Closed s
      | Other _ =>
          with_phase Idle (send_text (Some t) (Error (_friendly_error e)) s)
      end
  end.

(** The head of the [while not agent_task.done()] loop. *)
Definition loop_head (t : nat) (gen_start : Z) (s : state) : state :=
  match status_of s t with
  | Some (Finished o) => resolve t o s
  | _ =>
      let remaining := GENERATION_TIMEOUT - (clock s - gen_start) in
      if remaining <=? 0 then
        with_phase (Draining t gen_start (clock s)) (with_sess (set_cancel true) s)
      else with_phase (Running t gen_start (clock s)) s
  end.

(** A frame read by the cancel listener while the agent runs. *)
Definition listen (t : nat) (gen_start : Z) (f : frame) (s : state) : state :=
  match f with
  | Disconnect => with_phase Closed (with_sess (set_cancel true) s)
  | ReadError => loop_head t gen_start s
  | Malformed _ => loop_head t gen_start s
  | LoadsRaises etype msg => resolve t (Raised (Exn (Other etype) msg)) s
  | NonObject pytype =>
      resolve t
        (Raised (Exn (Other "AttributeError")
                     ("'" +:+ pytype +:+ "' object has no attribute 'get'"))) s
  | Object r =>
      if bool_decide (Request.type r = Some "cancel") then
        loop_head t gen_start (with_sess (set_cancel true) s)
      else if bool_decide (Request.type r = Some "new_conversation") then
        loop_head t gen_start
          (with_sess reset_agent (with_sess (set_cancel true) s))
      else loop_head t gen_start s
  end.

(** Is the [asyncio.wait] of the listener due to return without a
    frame: the agent task is done or the slice has elapsed. *)
Definition wait_over (t : nat) (gen_start wait_since : Z) (s : state) : bool :=
  match status_of s t with
  | Some (Finished _) => true
  | _ =>
      let remaining := GENERATION_TIMEOUT - (wait_since - gen_start) in
      Z.min remaining LISTEN_SLICE <=? clock s - wait_since
  end.

Section WithConfig.
Variable config : Config.Config.

(** Start the worker of a new turn on agent [id]. *)
Definition spawn (id : nat) (user_message : user_message)
    (handler : StreamingCallbackHandler) (s : state) : state :=
  let t := next_turn s in
  {| sess := sess s;
     phase_of := Running t (clock s) (clock s);
     clock := clock s;
     workers := <[t := {| w_agent := id; w_message := user_message;
                          w_handler := handler; w_status := Pending |}]> (workers s);
     next_turn := S t;
     agents_created := agents_created s;
     outbound := outbound s;
     log := log s |}.

(** [create_agent(...)] and the rebinding of the handle. *)
Definition rebuild (model_config : Agent.ModelConfig) (mode_type : string)
    (user_message : user_message) (handler : StreamingCallbackHandler)
    (s : state) : state :=
  match Agent.create_agent config model_config mode_type with
  | Raised _ => with_phase Closed s
  | Returned _ =>
      let id := agents_created s in
      spawn id user_message handler
        {| sess := bind_agent id model_config mode_type (sess s);
           phase_of := phase_of s; clock := clock s; workers := workers s;
           next_turn := next_turn s; agents_created := S id;
           outbound := outbound s; log := log s |}
  end.

(** A frame that is neither [cancel] nor [new_conversation], read by
    the outer loop. *)
Definition generation_request (r : Request.request) (s : state) : state :=
  let prompt := get_default (Request.prompt r) "" in
  let context := get_default (Request.context r) "" in
  let mode := get_default (Request.mode r) "generate" in
  if negb (truthy prompt) && bool_decide (mode = "generate") then
    send_text None (Error "Empty prompt") s
  else
    let s := with_sess (set_cancel false) s in
    let model_config := Agent.from_request (Request.config r) in
    let mode_type := request_mode_type r in
    let text_message := build_message prompt context mode in
    let user_message :=
      build_multimodal_message text_message (Request.screenshot_b64 r) in
    let handler := new_handler (clock s) in
    match agent (sess s) with
    | Some id =>
        if bool_decide (Some model_config ≠ current_config (sess s))
           || bool_decide (Some mode_type ≠ current_mode_type (sess s))
        then rebuild model_config mode_type user_message handler s
        else spawn id user_message handler s
    | None => rebuild model_config mode_type user_message handler s
    end.

(** A frame read by the outer loop. *)
Definition dispatch (f : frame) (s : state) : state :=
  match f with
  | Disconnect => with_phase Closed s
  | ReadError => with_phase Closed s
  | Malformed err => send_text None (Error ("Invalid JSON: " +:+ err)) s
  | LoadsRaises _ _ => with_phase Closed s
  | NonObject _ => with_phase Closed s
  | Object r =>
      if bool_decide (Request.type r = Some "cancel") then
        with_sess (set_cancel true) s
      else if bool_decide (Request.type r = Some "new_conversation") then
        send_text None ConversationReset (with_sess reset_agent s)
      else generation_request r s
  end.

(** A callback invocation made by the agent of turn [t], given the
    signal as its test reads it. *)
Definition callback_reading (flag : bool) (t : nat) (w : worker) (kw : kwargs)
    (o : send_outcome) (s : state) : state :=
  match __call__ (w_handler w) flag (clock s) kw o with
  | Raised e => with_worker t (with_status (Finished (Raised e)) w) s
  | Returned (h, None) => with_worker t (with_handler h w) s
  | Returned (h, Some rep) =>
      let s := with_worker t (with_handler h w) s in
      let s := send_text (Some t) (scheduled rep) s in
      match warning rep with
      | Some line => with_log (log s ++ [line]) s
      | None => s
      end
  end.

Definition callback (t : nat) (w : worker) (kw : kwargs) (o : send_outcome)
    (s : state) : state :=
  callback_reading (cancel_event (sess s)) t w kw o s.

(** The test of the signal that opens a callback invocation. *)
Definition callback_check (t : nat) (w : worker) (s : state) : state :=
  with_worker t
    (with_status
       (if cancel_event (sess s)
        then Finished (Raised (Exn CancellationError "Generation cancelled by client"))
        else Checked) w) s.

(** Does the outer loop, reading the request [r], call
    [create_agent] and get past its test of the provider. *)
Definition builds (r : Request.request) (s : state) : bool :=
  let prompt := get_default (Request.prompt r) "" in
  let mode := get_default (Request.mode r) "generate" in
  let model_config := Agent.from_request (Request.config r) in
  let mode_type := request_mode_type r in
  negb (bool_decide (Request.type r = Some "cancel"))
  && negb (bool_decide (Request.type r = Some "new_conversation"))
  && negb (negb (truthy prompt) && bool_decide (mode = "generate"))
  && match agent (sess s) with
     | Some _ =>
         bool_decide (Some model_config ≠ current_config (sess s))
         || bool_decide (Some mode_type ≠ current_mode_type (sess s))
     | None => true
     end
  && match Agent.create_agent config model_config mode_type with
     | Returned _ => true
     | Raised _ => false
     end.

(** One step of the connection; [None] when the event cannot
    happen in the state. *)
Definition step (s : state) (e : event) : option state :=
  match phase_of s with
  | Closed => None
  | p =>
      match e with
      | Advance dt =>
          if 0 <=? dt then Some (with_clock (clock s + dt) s) else None
      | Recv f =>
          match p with
          | Idle => Some (dispatch f s)
          | Running t gen_start _ => Some (listen t gen_start f s)
          | _ => None
          end
      | Poll =>
          match p with
          | Running t gen_start wait_since =>
              if wait_over t gen_start wait_since s
              then Some (loop_head t gen_start s) else None
          | _ => None
          end
      | GraceOver =>
          match p with
          | Draining t gen_start wait_since =>
              match status_of s t with
              | Some (Finished o) => Some (resolve t o s)
              | _ =>
                  if GRACE_PERIOD <=? clock s - wait_since then
                    Some (resolve t
                            (Raised (Exn TimeoutError "Generation timed out")) s)
                  else None
              end
          | _ => None
          end
      | WorkerStart t =>
          match workers s !! t with
          | Some w =>
              match w_status w with
              | Pending =>
                  Some (with_worker t
                          (with_status (_run_agent (cancel_event (sess s))) w) s)
              | _ => None
              end
          | None => None
          end
      | Callback t kw o =>
          match workers s !! t with
          | Some w =>
              match w_status w with
              | Active => Some (callback t w kw o s)
              | _ => None
              end
          | None => None
          end
      | CallbackCheck t =>
          match workers s !! t with
          | Some w =>
              match w_status w with
              | Active => Some (callback_check t w s)
              | _ => None
              end
          | None => None
          end
      | CallbackSend t kw o =>
          match workers s !! t with
          | Some w =>
              match w_status w with
              | Checked =>
                  Some (callback_reading false t (with_status Active w) kw o s)
              | _ => None
              end
          | None => None
          end
      | AgentReturns t r =>
          match workers s !! t with
          | Some w =>
              match w_status w with
              | Active => Some (with_worker t (with_status (Finished (Returned r)) w) s)
              | _ => None
              end
          | None => None
          end
      | AgentRaises t e =>
          match workers s !! t with
          | Some w =>
              match w_status w with
              | Active => Some (with_worker t (with_status (Finished (Raised e)) w) s)
              | _ => None
              end
          | None => None
          end
      | RecvBuildRaises r _ =>
          match p with
          | Idle =>
              if builds r s
              then Some (with_phase Closed (with_sess (set_cancel false) s))
              else None
          | _ => None
          end
      end
  end.

Fixpoint run (s : state) (es : list event) : option state :=
  match es with
  | [] => Some s
  | e :: es' =>
      match step s e with
      | Some s' => run s' es'
      | None => None
      end
  end.
End WithConfig.

(** The messages sent for turn [t], in order. *)
Definition turn_msgs (t : nat) (out : list sent) : list out_msg :=
  msg <$> filter (λ x, for_turn x = Some t) out.

(** The turn in flight. *)
Definition active_turn (s : state) : option nat :=
  match phase_of s with
  | Running t _ _ | Draining t _ _ => Some t
  | _ => None
  end.

End Server.

(** ** agentcore/agentcore_app.py: the AgentCore SDK entrypoint *)

Module AgentCoreApp.
Import Py.

Definition _classify_mode_type (mode context : string) : string :=
  if bool_decide (mode ∈ ["rewrite"; "fix"; "translate"]) then "draft"
  else if truthy context then "draft"
  else "chat".

Definition _build_message (prompt context mode : string) : string :=
  if bool_decide (mode = "rewrite") && truthy context then
    "Rewrite the following text:" +:+ nl +:+ nl +:+ context
      +:+ nl +:+ nl +:+ "Instructions: " +:+ prompt
  else if bool_decide (mode = "fix") && truthy context then
    "Fix grammar and spelling in the following text:" +:+ nl +:+ nl +:+ context
  else if bool_decide (mode = "translate") && truthy context then
    "Translate the following text. " +:+ prompt +:+ nl +:+ nl +:+ context
  else if truthy context then
    "Context (selected text from user's application):" +:+ nl
      +:+ dq +:+ dq +:+ dq +:+ nl +:+ context +:+ nl +:+ dq +:+ dq +:+ dq
      +:+ nl +:+ nl +:+ "Task: " +:+ prompt
  else prompt.

(** A returned dict, as the literal lists its keys. *)
Definition dict := list (string * string).

Section Invoke.
Variable config : Config.Config.
(** The opaque rest of the [try] block, once [create_agent] has
    accepted the provider: the library constructors that
    [create_agent] calls for a configuration and a mode type, then
    [agent(user_message)]. It gives [str(result)], or the exception
    that one of them raises. *)
Variable agent : Agent.ModelConfig → string → string → result string.

Definition invoke (payload : Request.request) : dict :=
  let prompt := get_default (Request.prompt payload) "" in
  let context := get_default (Request.context payload) "" in
  let mode := get_default (Request.mode payload) "generate" in
  if negb (truthy prompt) && bool_decide (mode = "generate") then
    [("error", "Empty prompt")]
  else
    let model_config := Agent.from_request (Request.config payload) in
    let mode_type :=
      match Request.mode_type payload with
      | Some m => if truthy m then m else _classify_mode_type mode context
      | None => _classify_mode_type mode context
      end in
    let user_message := _build_message prompt context mode in
    match Agent.create_agent config model_config mode_type with
    | Raised e => [("error", exn_msg e)]
    | Returned _ =>
        match agent model_config mode_type user_message with
        | Returned response_text => [("result", response_text)]
        | Raised e => [("error", exn_msg e)]
        end
    end.
End Invoke.

End AgentCoreApp.

(** ** agentcore/server.py: the synchronous /invocations endpoint *)

Module AgentCoreServer.
Import Py Message.

(** What [await request.json()] gives: it raises, with [str(e)]; or
    it returns a value that is not an object, or an object. An object
    is a request whose [prompt], [context], [mode] and [mode_type] are
    strings where present and whose [config], where present, is an
    object of strings; objects with fields of other types are outside
    the model. *)
Inductive body :=
| BodyMalformed (err : string)
| BodyNonObject (pytype : string)
| BodyObject (r : Request.request).

Record response := { status_code : Z; content : AgentCoreApp.dict }.

Section Invocations.
Variable config : Config.Config.
(** The opaque rest of the [try] block, as for [invoke]: the library
    constructors called by [create_agent], then
    [agent(user_message)]. *)
Variable agent : Agent.ModelConfig → string → user_message → result string.

(** [Raised] is an exception that leaves the endpoint function. *)
Definition invocations (b : body) : result response :=
  match b with
  | BodyMalformed err =>
      Returned
        {| status_code := 400;
           content := [("type", "error"); ("content", "Invalid JSON: " +:+ err)] |}
  | BodyNonObject pytype =>
      Raised (Exn (Other "AttributeError")
                  ("'" +:+ pytype +:+ "' object has no attribute 'get'"))
  | BodyObject r =>
      let prompt := get_default (Request.prompt r) "" in
      let context := get_default (Request.context r) "" in
      let mode := get_default (Request.mode r) "generate" in
      if negb (truthy prompt) && bool_decide (mode = "generate") then
        Returned
          {| status_code := 400;
             content := [("type", "error"); ("content", "Empty prompt")] |}
      else
        let model_config := Agent.from_request (Request.config r) in
        let mode_type := request_mode_type r in
        let text_message := build_message prompt context mode in
        let user_message :=
          build_multimodal_message text_message (Request.screenshot_b64 r) in
        let failure e :=
          Returned
            {| status_code := 500;
               content := [("type", "error"); ("content", _friendly_error e)] |} in
        match Agent.create_agent config model_config mode_type with
        | Raised e => failure e
        | Returned _ =>
            match agent model_config mode_type user_message with
            | Returned full_response =>
                Returned
                  {| status_code := 200;
                     content := [("type", "done"); ("content", full_response)] |}
            | Raised e => failure e
            end
        end
  end.
End Invocations.

End AgentCoreServer.

(** * Vocabulary of the statements and sample runs *)

Module Vocabulary.
Import Py Message Server.

(** ** Predicates on requests, frames and records *)

Definition is_control (r : Request.request) : Prop :=
  Request.type r = Some "cancel" ∨ Request.type r = Some "new_conversation".

(** The frames the cancel listener reads and passes over: a failed
    read, a payload on which [json.loads] raises [JSONDecodeError],
    an object that is not a control message. *)
Definition discardable (f : frame) : Prop :=
  match f with
  | ReadError | Malformed _ => True
  | Object r => ¬ is_control r
  | Disconnect | LoadsRaises _ _ | NonObject _ => False
  end.



(** The configuration a handle is built with, after the fallback to
    the process defaults, and the mode type. *)
Definition effective_tuple (config : Config.Config)
    (mc : Agent.ModelConfig) (mode_type : string)
    : string * string * string * string * string :=
  (Agent.effective_provider config mc, Agent.effective_model_id config mc,
   Agent.effective_aws_profile config mc, Agent.effective_aws_region config mc,
   mode_type).

(** ** The stream of a turn *)

Definition terminals (l : list out_msg) : nat :=
  length (filter (λ m, is_terminal m = true) l).

(** Zero or more tokens, then one terminal message. *)
Definition turn_stream (l : list out_msg) : Prop :=
  ∃ toks term,
    l = toks ++ [term]
    ∧ Forall (λ m, is_token m = true) toks ∧ is_terminal term = true.

(** ** What one step can do *)

(** The worker of turn [t] is inside the call of the agent, in or out
    of the callback handler. *)
Definition in_agent (s : state) (t : nat) : Prop :=
  status_of s t = Some Active ∨ status_of s t = Some Checked.

(** The messages a step sends: at most one, and it is a reply made
    outside any turn, a token of a worker that is inside the agent, or
    a terminal message for the turn in flight, which ends with it. *)
Inductive sends (s s' : state) : list sent → Prop :=
| sends_nothing : sends s s' []
| sends_reply m : sends s s' [Sent None m]
| sends_token t c :
    in_agent s t → sends s s' [Sent (Some t) (Token c)]
| sends_terminal t m :
    is_terminal m = true → active_turn s = Some t → phase_of s' = Idle →
    sends s s' [Sent (Some t) m].

(** How a step moves the turn in flight and the turn counter. *)
Inductive turn_change (s s' : state) : Prop :=
| turn_same :
    active_turn s' = active_turn s → next_turn s' = next_turn s →
    turn_change s s'
| turn_ended :
    active_turn s' = None → next_turn s' = next_turn s → turn_change s s'
| turn_started :
    phase_of s = Idle → active_turn s' = Some (next_turn s) →
    next_turn s' = S (next_turn s) → outbound s' = outbound s →
    cancel_event (sess s') = false →
    status_of s' (next_turn s) = Some Pending →
    turn_change s s'.

(** How a step changes the worker of a turn: not at all, by moving a
    worker that has not finished, or by creating the worker of the
    turn that starts. *)
Inductive worker_change (s s' : state) (t : nat) : Prop :=
| worker_same : workers s' !! t = workers s !! t → worker_change s s' t
| worker_moves w w' :
    workers s !! t = Some w → workers s' !! t = Some w' →
    (∀ o, w_status w ≠ Finished o) → worker_change s s' t
| worker_created w' :
    t = next_turn s → next_turn s' = S (next_turn s) →
    workers s' !! t = Some w' → worker_change s s' t.

(** ** Reachable states *)

(** Turns are numbered as they start; workers and messages belong to
    turns that have started; the turn in flight has been sent tokens
    only; no turn has been sent two terminal messages; the wait after
    the ceiling starts no sooner than the ceiling. *)
Record wf (s : state) : Prop := {
  wf_workers : ∀ t, is_Some (workers s !! t) → (t < next_turn s)%nat;
  wf_tags : ∀ x t, x ∈ outbound s → for_turn x = Some t → (t < next_turn s)%nat;
  wf_active : ∀ t, active_turn s = Some t →
              (t < next_turn s)%nat
              ∧ Forall (λ m, is_token m = true) (turn_msgs t (outbound s));
  wf_terminals : ∀ t, (terminals (turn_msgs t (outbound s)) ≤ 1)%nat;
  wf_draining : ∀ t gen_start wait_since,
                phase_of s = Draining t gen_start wait_since →
                GENERATION_TIMEOUT ≤ wait_since - gen_start ∧ wait_since ≤ clock s
}.

(** Once its worker has finished and the orchestrator has left it, a
    turn is silent. *)
Definition settled (t : nat) (s : state) : Prop :=
  (∃ o, status_of s t = Some (Finished o)) ∧ active_turn s ≠ Some t.

(** ** Sample requests *)

Definition ask (p : string) : Request.request :=
  {| Request.type := None; Request.prompt := Some p;
     Request.context := None; Request.mode := Some "generate";
     Request.mode_type := None; Request.screenshot_b64 := None;
     Request.config := None |}.

Definition ask_as_draft (p : string) : Request.request :=
  {| Request.type := None; Request.prompt := Some p;
     Request.context := None; Request.mode := Some "generate";
     Request.mode_type := Some "draft"; Request.screenshot_b64 := None;
     Request.config := None |}.

Definition ask_with_provider (p provider : string) : Request.request :=
  {| Request.type := None; Request.prompt := Some p;
     Request.context := None; Request.mode := Some "generate";
     Request.mode_type := None; Request.screenshot_b64 := None;
     Request.config :=
       Some {| Agent.cd_provider := Some provider; Agent.cd_model_id := None;
               Agent.cd_aws_profile := None; Agent.cd_aws_region := None |} |}.


Definition control (ty : string) : Request.request :=
  {| Request.type := Some ty; Request.prompt := None;
     Request.context := None; Request.mode := None;
     Request.mode_type := None; Request.screenshot_b64 := None;
     Request.config := None |}.

(** ** Sample runs *)

(** A callback invocation carrying [data], whose send completes after
    one millisecond. *)
Definition token (t : nat) (data : string) : event :=
  Callback t {| kw_data := Some data; kw_complete := None |} (SendCompletes 1).

(** The state a fresh connection is in after a run, with the default
    configuration and the clock started at 0. *)
Definition state_after (es : list event) : state :=
  default (init 0) (run Config.defaults (init 0) es).

(** [n] seconds during which the listener wakes up once a second and
    nothing else happens. *)
Definition ticks (n : nat) : list event :=
  concat (replicate n [Advance 1000; Poll]).

(** A turn of two tokens, up to the return of the agent. *)
Definition short_turn : list event :=
  [Recv (Object (ask "Hello")); WorkerStart 0; token 0 "a"; token 0 "b";
   AgentReturns 0 "ab"].

(** The client goes away after the first token. *)
Definition dropped_connection : list event :=
  [Recv (Object (ask "Hello")); WorkerStart 0; token 0 "a"; Recv Disconnect].

(** A complete turn on the provider spelled [bedrock]. *)
Definition first_turn_lowercase : list event :=
  [Recv (Object (ask_with_provider "Hi" "bedrock")); WorkerStart 0;
   AgentReturns 0 "Hello!"; Poll].

(** A complete turn without a [config]. *)
Definition first_turn : list event :=
  [Recv (Object (ask "Hello")); WorkerStart 0; AgentReturns 0 "Hi"; Poll].

(** An agent that is silent for 120 seconds: the listener reaches the
    ceiling at its 120th wake-up, and one more second passes. *)
Definition slow_turn : list event :=
  [Recv (Object (ask "Hang forever")); WorkerStart 0] ++ ticks 120
    ++ [Advance 1000].

(** ... which then returns, before the wait after the ceiling is
    over. *)
Definition late_return : list event :=
  [AgentReturns 0 "Too late"; GraceOver].

(** The same agent at 120 seconds, before the listener wakes up. *)
Definition ceiling_reached : list event :=
  [Recv (Object (ask "Hang forever")); WorkerStart 0] ++ ticks 119
    ++ [Advance 1000].

(** The same agent, still silent 5 seconds after the ceiling was
    reached. *)
Definition grace_elapsed : list event := slow_turn ++ [Advance 4000].

(** ... is left behind, the next turn starts, and the agent of the
    first turn wakes up. *)
Definition abandoned_then_next_turn : list event :=
  grace_elapsed
    ++ [GraceOver; Recv (Object (ask "Next")); WorkerStart 1; token 0 "late"].

(** A turn that has sent one token. *)
Definition mid_turn : list event :=
  [Recv (Object (ask "Hello")); WorkerStart 0; token 0 "a"].

(** The rest of that turn's agent run. *)
Definition rest_of_turn : list event :=
  [token 0 "b"; AgentReturns 0 "ab"].

End Vocabulary.

(** ** config.py: the configuration read from the environment *)

Module ConfigEnv.
Import Py.

(** [os.environ.get(key, default)] *)
Definition environ_get (env : gmap string string) (key dflt : string) : string :=
  default dflt (env !! key).

(** The fields of [Config] that the agent reads, as the class body
    computes them when the module is loaded. *)
Definition from_environ (env : gmap string string) : Config.Config := {|
  Config.model_provider := environ_get env "GHOSTTYPE_PROVIDER" "bedrock";
  Config.model_id :=
    environ_get env "GHOSTTYPE_MODEL_ID" "global.anthropic.claude-opus-4-6-v1";
  Config.aws_profile :=
    environ_get env "GHOSTTYPE_AWS_PROFILE" (environ_get env "AWS_PROFILE" "");
  Config.aws_region :=
    environ_get env "GHOSTTYPE_AWS_REGION"
      (environ_get env "AWS_DEFAULT_REGION" "us-west-2")
|}.

(** The whole of the class, with [pyfloat] for Python's floats. *)
Record Config (pyfloat : Type) := {
  host : string;
  port : Z;
  model_provider : string;
  model_id : string;
  aws_profile : string;
  aws_region : string;
  max_tokens : Z;
  temperature : pyfloat;
  log_level : string
}.
Global Arguments host {pyfloat} c.
Global Arguments port {pyfloat} c.
Global Arguments model_provider {pyfloat} c.
Global Arguments model_id {pyfloat} c.
Global Arguments aws_profile {pyfloat} c.
Global Arguments aws_region {pyfloat} c.
Global Arguments max_tokens {pyfloat} c.
Global Arguments temperature {pyfloat} c.
Global Arguments log_level {pyfloat} c.

(** The fields the agent reads. *)
Definition read_by_agent {pyfloat : Type} (c : Config pyfloat) : Config.Config := {|
  Config.model_provider := model_provider c;
  Config.model_id := model_id c;
  Config.aws_profile := aws_profile c;
  Config.aws_region := aws_region c
|}.

Section Class_body.
Context {pyfloat : Type}.
(** The builtins [int] and [float] on a string: the number, or the
    [ValueError] they raise. *)
Variable int : string → result Z.
Variable float : string → result pyfloat.

(** The body of the class, run once when the module is loaded: the
    defaults of the fields, in the order they are written. An
    exception of [int] or [float] leaves the module unloaded. *)
Definition class_body (env : gmap string string) : result (Config pyfloat) :=
  let model_provider := environ_get env "GHOSTTYPE_PROVIDER" "bedrock" in
  let model_id :=
    environ_get env "GHOSTTYPE_MODEL_ID" "global.anthropic.claude-opus-4-6-v1" in
  let aws_profile :=
    environ_get env "GHOSTTYPE_AWS_PROFILE" (environ_get env "AWS_PROFILE" "") in
  let aws_region :=
    environ_get env "GHOSTTYPE_AWS_REGION"
      (environ_get env "AWS_DEFAULT_REGION" "us-west-2") in
  match int (environ_get env "GHOSTTYPE_MAX_TOKENS" "2048") with
  | Raised e => Raised e
  | Returned max_tokens =>
      match float (environ_get env "GHOSTTYPE_TEMPERATURE" "0.7") with
      | Raised e => Raised e
      | Returned temperature =>
          Returned
            {| host := "127.0.0.1"; port := 8420;
               model_provider := model_provider; model_id := model_id;
               aws_profile := aws_profile; aws_region := aws_region;
               max_tokens := max_tokens; temperature := temperature;
               log_level := environ_get env "GHOSTTYPE_LOG_LEVEL" "DEBUG" |}
      end
  end.
End Class_body.

(** The variables the class body reads. *)
Definition variables_read : list string :=
  ["GHOSTTYPE_PROVIDER"; "GHOSTTYPE_MODEL_ID"; "GHOSTTYPE_AWS_PROFILE";
   "AWS_PROFILE"; "GHOSTTYPE_AWS_REGION"; "AWS_DEFAULT_REGION";
   "GHOSTTYPE_MAX_TOKENS"; "GHOSTTYPE_TEMPERATURE"; "GHOSTTYPE_LOG_LEVEL"].

End ConfigEnv.

(** ** mcp_manager.py *)

Module MCPManager.
Import Py.

(** A server entry of the configuration file, key by key; [enabled]
    is the truth value of the entry's [enabled] value when the key is
    there. *)
Record server_cfg := {
  enabled : option bool;
  command : option string;
  args : option (list string);
  env : option (list (string * string))
}.

(** The [servers] entry of the configuration dict, when there is one:
    the items of an object of objects, in the order of the file. *)
Definition mcp_config := option (list (string * server_cfg)).

(** The configuration file as [_load_config] finds it: missing;
    failing with [OSError] when opened or read; making [json.load]
    raise [JSONDecodeError]; making the [try] block raise an
    exception of another type, which its [except] clause does not
    catch ([UnicodeDecodeError] or [RecursionError] from
    [json.load], [AttributeError] from [data.get] when the file holds
    a JSON value that is not an object, [TypeError] from [len] when
    the [servers] entry is a number, a boolean or null); or parsed.
    A file that parses is taken to have the shape the manager is
    written for: an object whose [servers] entry, if it has one, is
    an object of objects. *)
Inductive config_file :=
| Missing
| Unreadable (err : string)
| NotJSON (err : string)
| LoadRaises (etype msg : string)
| Parsed (data : mcp_config).

(** [Raised] is an exception that leaves [_load_config], and with it
    the constructor of the manager. *)
Definition _load_config (f : config_file) : result mcp_config :=
  match f with
  | Missing => Returned (Some [])
  | Unreadable _ | NotJSON _ => Returned (Some [])
  | LoadRaises etype msg => Raised (Exn (Other etype) msg)
  | Parsed data => Returned data
  end.

(** [self._config.get("servers", {})] *)
Definition servers_of (c : mcp_config) : list (string * server_cfg) :=
  default [] c.

(** [cfg.get("enabled", True)] *)
Definition is_enabled (cfg : server_cfg) : bool := default true (enabled cfg).

Definition _enabled_servers (c : mcp_config) : list (string * server_cfg) :=
  filter (λ item, is_enabled item.2 = true) (servers_of c).

(** What [start] logs and how it ends: whether it reports that no
    server is configured, the names it reports as disabled (a set: the
    order of those lines is that of a Python set), the enabled servers
    it announces with their commands, in order, and its outcome. *)
Record start_report := {
  none_configured : bool;
  skipped : gset string;
  announced : list (string * string);
  outcome : result unit
}.

(** The loop over the enabled servers: [cfg["command"]] raises
    [KeyError] on an entry without a command. *)
Fixpoint announce (enabled : list (string * server_cfg))
    : list (string * string) * result unit :=
  match enabled with
  | [] => ([], Returned tt)
  | (name, cfg) :: rest =>
      match command cfg with
      | None => ([], Raised (Exn (Other "KeyError") "'command'"))
      | Some c => let r := announce rest in ((name, c) :: r.1, r.2)
      end
  end.

Definition start (c : mcp_config) : start_report :=
  let servers := servers_of c in
  match servers with
  | [] => {| none_configured := true; skipped := ∅; announced := [];
             outcome := Returned tt |}
  | _ =>
      let enabled := _enabled_servers c in
      let disabled : gset string :=
        list_to_set servers.*1 ∖ list_to_set enabled.*1 in
      let r := announce enabled in
      {| none_configured := false; skipped := disabled; announced := r.1;
         outcome := r.2 |}
  end.

(** A client, with the name of the server it was created for and the
    entry its transport closes over. *)
Record MCPClient := { server_name : string; sc : server_cfg }.

Record StdioServerParameters := {
  ssp_command : string;
  ssp_args : list string;
  ssp_env : option (list (string * string))
}.

(** The transport factory handed to the client, run when the agent
    starts the client and not before. *)
Definition transport (client : MCPClient) : result StdioServerParameters :=
  match command (sc client) with
  | None => Raised (Exn (Other "KeyError") "'command'")
  | Some c =>
      Returned {| ssp_command := c; ssp_args := default [] (args (sc client));
                  ssp_env := env (sc client) |}
  end.

Section Tools.
(** The constructor of the client library, which may raise. *)
Variable MCPClient_init : string → server_cfg → result unit.

Definition get_mcp_tools (c : mcp_config) : list MCPClient :=
  omap (λ item,
          match MCPClient_init item.1 item.2 with
          | Returned _ => Some {| server_name := item.1; sc := item.2 |}
          | Raised _ => None
          end)
       (_enabled_servers c).
End Tools.

End MCPManager.

(** ** agent.py: what an agent is built from *)

Module AgentBuild.
Import Py Agent.

(** The keyword arguments of [boto3.Session]. *)
Record session_kwargs := { region_name : string; profile_name : option string }.

(** The arguments of [BedrockModel]. *)
Record BedrockModel := {
  bm_model_id : string;
  boto_session : session_kwargs;
  bm_max_tokens : Z
}.

Inductive tool :=
| rewrite_text
| fix_grammar
| translate_text
| provided (client : MCPManager.MCPClient).

Inductive handler (Handler : Type) :=
| null_callback_handler
| given (h : Handler).
Global Arguments null_callback_handler {Handler}.
Global Arguments given {Handler} h.

(** The arguments of [Agent]. *)
Record agent_args (Handler : Type) := {
  model : BedrockModel;
  system_prompt : string;
  tools : list tool;
  callback_handler : handler Handler
}.
Global Arguments model {Handler} a.
Global Arguments system_prompt {Handler} a.
Global Arguments tools {Handler} a.
Global Arguments callback_handler {Handler} a.

Definition chat_fallback : string :=
  "You are GhostType, an AI assistant embedded in macOS. "
    +:+ "Be concise but thorough. Use markdown formatting when it helps readability.".

Definition draft_fallback : string :=
  "You are GhostType, an AI writing assistant. "
    +:+ "Output ONLY the requested text. No explanations or markdown.".

Section Build.
Context {Handler : Type}.
Variable config : Config.Config.
(** [config.max_tokens] *)
Variable max_tokens : Z.
(** A file of the prompts directory: [None] when it does not exist,
    else what [read_text().strip()] gives. *)
Variable prompt_file : string → option (result string).
(** The constructors of the libraries, which may raise; [Agent_init]
    is the construction of the agent together with the reading of its
    tool registry for the log line that follows it. *)
Variable boto3_Session : session_kwargs → result unit.
Variable BedrockModel_init : BedrockModel → result unit.
Variable Agent_init : agent_args Handler → result unit.

Definition _load_system_prompt (mode_type : string) : result string :=
  let filename :=
    if bool_decide (mode_type = "chat") then "chat.txt" else "system.txt" in
  match prompt_file filename with
  | Some text => text
  | None =>
      if bool_decide (mode_type = "chat") then Returned chat_fallback
      else Returned draft_fallback
  end.

Definition create_model (model_config : option ModelConfig) : result BedrockModel :=
  let mc := default ModelConfig_default model_config in
  let provider := effective_provider config mc in
  let model_id := effective_model_id config mc in
  if bool_decide (provider = "bedrock") then
    let aws_profile := effective_aws_profile config mc in
    let aws_region := effective_aws_region config mc in
    let session_kwargs :=
      {| region_name := aws_region;
         profile_name := if truthy aws_profile then Some aws_profile else None |} in
    match boto3_Session session_kwargs with
    | Raised e => Raised e
    | Returned _ =>
        let m := {| bm_model_id := model_id; boto_session := session_kwargs;
                    bm_max_tokens := max_tokens |} in
        match BedrockModel_init m with
        | Raised e => Raised e
        | Returned _ => Returned m
        end
    end
  else Raised (Exn (Other "ValueError") ("Unknown model provider: " +:+ provider)).

Definition create_agent (callback_handler : option Handler)
    (model_config : option ModelConfig) (mode_type : string)
    (mcp_tools : option (list MCPManager.MCPClient))
    : result (agent_args Handler) :=
  match create_model model_config with
  | Raised e => Raised e
  | Returned model =>
      match _load_system_prompt mode_type with
      | Raised e => Raised e
      | Returned system_prompt =>
          let handler :=
            match callback_handler with
            | Some h => given h
            | None => null_callback_handler
            end in
          let tools :=
            [rewrite_text; fix_grammar; translate_text]
              ++ match mcp_tools with
                 | Some (c :: l) => provided <$> (c :: l)
                 | _ => []
                 end in
          let a := {| model := model; system_prompt := system_prompt;
                      tools := tools; callback_handler := handler |} in
          match Agent_init a with
          | Raised e => Raised e
          | Returned _ => Returned a
          end
      end
  end.
End Build.

End AgentBuild.

(** * Vocabulary of the further statements *)

Module Observations.
Import Py Message Server Vocabulary.

(** ** The streaming endpoint *)

(** The number of token messages sent for turn [t]. *)
Definition tokens_sent (t : nat) (out : list sent) : nat :=
  length (filter (λ m, is_token m = true) (turn_msgs t out)).

(** The bookkeeping of the handler of turn [t]: it has counted the
    tokens sent for its turn, it has a first-token time exactly when it
    has counted one, and its times are in order. *)
Record handler_ok (s : state) (t : nat) (w : worker) : Prop := {
  counts_tokens : token_count (w_handler w) = tokens_sent t (outbound s);
  first_iff_counted :
    first_token_time (w_handler w) = None ↔ token_count (w_handler w) = 0%nat;
  started_in_past : start_time (w_handler w) ≤ clock s;
  first_in_between :
    ∀ ft, first_token_time (w_handler w) = Some ft →
          start_time (w_handler w) ≤ ft ≤ clock s
}.

(** What a step does to the handlers, the clock and the tokens. *)
Inductive handler_effect (s s' : state) : Prop :=
| effect_time dt :
    0 ≤ dt → clock s' = clock s + dt → workers s' = workers s →
    outbound s' = outbound s → handler_effect s s'
| effect_coroutine ext :
    clock s' = clock s → outbound s' = outbound s ++ ext →
    Forall (λ x, is_token (msg x) = false) ext →
    (workers s' = workers s
     ∨ ∃ w, workers s' = <[next_turn s := w]> (workers s)
            ∧ w_handler w = new_handler (clock s)) →
    handler_effect s s'
| effect_worker t w w' :
    clock s' = clock s → outbound s' = outbound s →
    workers s !! t = Some w → workers s' = <[t := w']> (workers s) →
    w_handler w' = w_handler w → handler_effect s s'
| effect_token t w w' c :
    clock s' = clock s → outbound s' = outbound s ++ [Sent (Some t) (Token c)] →
    workers s !! t = Some w → workers s' = <[t := w']> (workers s) →
    token_count (w_handler w') = S (token_count (w_handler w)) →
    start_time (w_handler w') = start_time (w_handler w) →
    first_token_time (w_handler w') =
      Some (default (clock s) (first_token_time (w_handler w))) →
    handler_effect s s'.

(** The sends still to come from the worker of turn [t] for a test
    of the signal it has already made: one if it is inside a callback
    invocation past its test, none otherwise. *)
Definition pending_send (s : state) (t : nat) : nat :=
  match status_of s t with
  | Some Checked => 1
  | _ => 0
  end.

(** A turn that has sent one token, whose agent invokes the callback
    again; the handler tests the signal, and then a cancel message is
    read. *)
Definition cancel_after_test : list event :=
  mid_turn ++ [CallbackCheck 0; Recv (Object (control "cancel"))].

(** ... and the invocation goes on to send its token. *)
Definition late_send : list event :=
  [CallbackSend 0 {| kw_data := Some "b"; kw_complete := None |} (SendCompletes 1)].

(** The handle slot and the two slots of its binding agree, and a
    bound handle is the last agent built. *)
Record binding_ok (s : state) : Prop := {
  bound_config : agent (sess s) = None ↔ current_config (sess s) = None;
  bound_mode_type : agent (sess s) = None ↔ current_mode_type (sess s) = None;
  bound_is_latest : ∀ id, agent (sess s) = Some id → agents_created s = S id
}.

(** The callback invocations of one run of the agent of turn [t], each
    with its keyword arguments and what becomes of the send it
    schedules. *)
Definition callbacks (t : nat) (calls : list (kwargs * send_outcome)) : list event :=
  (λ c, Callback t c.1 c.2) <$> calls.

(** The token messages those invocations send when the signal is
    clear: one for each invocation that carries data. *)
Definition streamed (t : nat) (calls : list (kwargs * send_outcome)) : list sent :=
  omap (λ c, let data := get_default (kw_data c.1) "" in
             if truthy data then Some (Sent (Some t) (Token data)) else None)
       calls.

(** Is the message a [conversation_reset]. *)
Definition is_reset (m : out_msg) : bool :=
  match m with ConversationReset => true | _ => false end.

(** The number of [conversation_reset] replies sent. *)
Definition resets_sent (out : list sent) : nat :=
  length (filter (λ x, is_reset (msg x) = true) out).

(** The state with another outbox, and what a later state has sent
    since an earlier one. *)
Definition with_outbound (out : list sent) (s : state) : state :=
  {| sess := sess s; phase_of := phase_of s; clock := clock s;
     workers := workers s; next_turn := next_turn s;
     agents_created := agents_created s; outbound := out; log := log s |}.

Definition sent_since (s s' : state) : list sent :=
  drop (length (outbound s)) (outbound s').

(** The clock of the turn in flight. *)
Definition timing_ok (s : state) : Prop :=
  match phase_of s with
  | Running t gen_start wait_since =>
      gen_start ≤ wait_since ≤ clock s
      ∧ wait_since - gen_start < GENERATION_TIMEOUT
      ∧ is_Some (workers s !! t)
  | Draining t gen_start wait_since =>
      gen_start ≤ wait_since ≤ clock s
      ∧ GENERATION_TIMEOUT ≤ wait_since - gen_start
      ∧ cancel_event (sess s) = true
      ∧ is_Some (workers s !! t)
  | _ => True
  end.

(** ** Messages, configurations and servers *)

(** The text block of a message handed to the agent. *)
Definition text_of (m : user_message) : string :=
  match m with
  | Text text => text
  | ImageThenText _ text => text
  end.

(** An agent configuration whose fields are all missing or empty. *)
Definition blank (d : Agent.config_dict) : Prop :=
  Agent.cd_provider d ∈ [None; Some ""]
  ∧ Agent.cd_model_id d ∈ [None; Some ""]
  ∧ Agent.cd_aws_profile d ∈ [None; Some ""]
  ∧ Agent.cd_aws_region d ∈ [None; Some ""].

(** A configuration of two servers, the second disabled and without
    a command. *)
Definition files_server : MCPManager.server_cfg :=
  {| MCPManager.enabled := None; MCPManager.command := Some "npx";
     MCPManager.args := Some ["-y"; "server-filesystem"];
     MCPManager.env := None |}.

Definition old_server : MCPManager.server_cfg :=
  {| MCPManager.enabled := Some false; MCPManager.command := None;
     MCPManager.args := None; MCPManager.env := None |}.

Definition two_servers : MCPManager.mcp_config :=
  Some [("files", files_server); ("old", old_server)].

(** One enabled server without a command. *)
Definition no_command : MCPManager.server_cfg :=
  {| MCPManager.enabled := None; MCPManager.command := None;
     MCPManager.args := None; MCPManager.env := None |}.

End Observations.

(** * Properties *)

(** ** The classifier and the message builder *)

Module MessageProps.
Import Py Message Vocabulary.

Lemma truthy_nonempty (s : string) : truthy s = true ↔ s ≠ "".
Proof. destruct s; simpl; split; congruence. Qed.

Lemma truthy_empty (s : string) : truthy s = false ↔ s = "".
Proof. destruct s; simpl; split; congruence. Qed.

Lemma editing_mode_cases (mode : string) :
  mode ∈ ["rewrite"; "fix"; "translate"] ↔
  mode = "rewrite" ∨ mode = "fix" ∨ mode = "translate".
Proof. rewrite !elem_of_cons, elem_of_nil. tauto. Qed.

(** C5. [classify_mode_type] is [draft] exactly when the mode is
    rewrite, fix or translate or the context is non-empty, and [chat]
    otherwise; a request that carries a non-empty [mode_type] gets
    that value, whatever the classifier says. *)
Theorem classification_and_override
    (mode context prompt : string) (r : Request.request) (m : string) :
  (classify_mode_type mode context prompt = "draft" ↔
     (mode = "rewrite" ∨ mode = "fix" ∨ mode = "translate" ∨ context ≠ ""))
  ∧ (classify_mode_type mode context prompt = "chat" ↔
       ¬ (mode = "rewrite" ∨ mode = "fix" ∨ mode = "translate" ∨ context ≠ ""))
  ∧ (Request.mode_type r = Some m → m ≠ "" → request_mode_type r = m)
  ∧ (Request.mode_type r = None ∨ Request.mode_type r = Some "" →
     request_mode_type r =
       classify_mode_type (get_default (Request.mode r) "generate")
         (get_default (Request.context r) "") (get_default (Request.prompt r) "")).
Proof.
  unfold classify_mode_type, request_mode_type.
  repeat split.
  - case_bool_decide as Hm; [rewrite editing_mode_cases in Hm; tauto|].
    destruct (truthy context) eqn:Hc; [apply truthy_nonempty in Hc; tauto|].
    discriminate.
  - intros H. case_bool_decide as Hm; [done|].
    rewrite editing_mode_cases in Hm.
    destruct (truthy context) eqn:Hc; [done|].
    apply truthy_empty in Hc. tauto.
  - case_bool_decide as Hm; [discriminate|].
    rewrite editing_mode_cases in Hm.
    destruct (truthy context) eqn:Hc; [discriminate|].
    apply truthy_empty in Hc. tauto.
  - intros H. case_bool_decide as Hm; [rewrite editing_mode_cases in Hm; tauto|].
    destruct (truthy context) eqn:Hc; [apply truthy_nonempty in Hc; tauto|done].
  - intros -> Hm. apply truthy_nonempty in Hm. by rewrite Hm.
  - intros [-> | ->]; done.
Qed.

Lemma classification_and_override_witness :
  classify_mode_type "generate" "" "Hello" = "chat"
  ∧ request_mode_type (ask_as_draft "Hello") = "draft".
Proof.
  split; [reflexivity|].
  apply (classification_and_override "generate" "" "Hello" (ask_as_draft "Hello") "draft");
    [reflexivity | discriminate].
Defined.

(** C9. With an empty context the rewrite, fix and translate modes
    return the prompt unchanged; with a non-empty context each of them
    yields its own fixed template. *)
Theorem build_message_templates (prompt context mode : string) :
  mode ∈ ["rewrite"; "fix"; "translate"] →
  build_message prompt "" mode = prompt
  ∧ (context ≠ "" →
     build_message prompt context mode =
       if bool_decide (mode = "rewrite") then
         "Rewrite the following text:" +:+ nl +:+ nl +:+ context
           +:+ nl +:+ nl +:+ "Instructions: " +:+ prompt
       else if bool_decide (mode = "fix") then
         "Fix grammar and spelling in the following text:" +:+ nl +:+ nl +:+ context
       else
         "Translate the following text. " +:+ prompt +:+ nl +:+ nl +:+ context).
Proof.
  rewrite editing_mode_cases. intros Hmode. split.
  - destruct Hmode as [-> | [-> | ->]]; reflexivity.
  - intros Hc. apply truthy_nonempty in Hc. unfold build_message. rewrite Hc.
    destruct Hmode as [-> | [-> | ->]]; reflexivity.
Qed.

Lemma build_message_templates_witness :
  build_message "" "" "fix" = ""
  ∧ build_message "" "Ths has errros" "fix" =
      "Fix grammar and spelling in the following text:" +:+ nl +:+ nl
        +:+ "Ths has errros".
Proof.
  destruct (build_message_templates "" "Ths has errros" "fix") as [H1 H2].
  - apply editing_mode_cases. right. left. reflexivity.
  - split; [exact H1 | apply H2; discriminate].
Defined.

End MessageProps.

(** ** The single-shot surfaces *)

Module AgentCoreProps.
Import Py Message Vocabulary.






End AgentCoreProps.

(** ** The streaming endpoint *)

Module ServerProps.
Import Py Message Server Vocabulary.

(** *** What one step can do *)

Ltac unfold_step :=
  unfold step, dispatch, listen, generation_request, rebuild, spawn, callback,
    callback_reading, callback_check, loop_head, resolve, _run_agent, __call__,
    _send_ws_message in * |-.

Ltac use_equations :=
  unfold status_of, active_turn in *; simpl in *;
  repeat match goal with
         | H : ?x = _ |- context [?x] => rewrite H; simpl
         end.

Ltac step_cases := unfold_step; repeat case_match; simplify_eq/=.

Lemma step_sends config s e s' :
  step config s e = Some s' →
  ∃ ext, outbound s' = outbound s ++ ext ∧ sends s s' ext.
Proof.
  intros Hstep. step_cases;
    try (exists []; split; [by rewrite app_nil_r | constructor]);
    try (eexists [_]; split; [reflexivity|]);
    try (by constructor);
    first [ apply sends_token; unfold in_agent, status_of; simpl;
            match goal with H : workers _ !! _ = Some _ |- _ => rewrite H end; simpl;
            match goal with H : w_status _ = _ |- _ => rewrite H end; by (left + right)
          | econstructor; by use_equations ].
Qed.

Lemma step_turn_change config s e s' :
  step config s e = Some s' → turn_change s s'.
Proof.
  intros Hstep. step_cases;
    first [ by (apply turn_same; use_equations)
          | by (apply turn_ended; use_equations)
          | by (apply turn_started; use_equations; rewrite ?lookup_insert_eq) ].
Qed.

Lemma step_worker_change config s e s' t :
  step config s e = Some s' → worker_change s s' t.
Proof.
  intros Hstep. step_cases; try (by apply worker_same).
  all: first
    [ match goal with
      | H : workers _ !! ?u = Some ?w |- _ =>
          destruct (decide (u = t)) as [-> | Hne];
          [ eapply worker_moves;
            [ exact H | simpl; apply lookup_insert_eq | congruence ]
          | apply worker_same; simpl; by apply lookup_insert_ne ]
      end
    | match goal with
      | |- worker_change ?s0 _ _ =>
          destruct (decide (next_turn s0 = t)) as [<- | Hne];
          [ eapply worker_created; [done | done | simpl; apply lookup_insert_eq]
          | apply worker_same; simpl; by apply lookup_insert_ne ]
      end ].
Qed.

(** The step that ends a turn with the connection still open sends
    that turn's terminal message. *)
Lemma step_ends_turn config s e s' t :
  step config s e = Some s' →
  active_turn s = Some t → active_turn s' ≠ Some t → phase_of s' ≠ Closed →
  ∃ m, outbound s' = outbound s ++ [Sent (Some t) m] ∧ is_terminal m = true
       ∧ phase_of s' = Idle.
Proof.
  intros Hstep Hact Hact' Hopen. unfold active_turn in *.
  step_cases; simpl in *; try congruence;
    try (eexists; split; [reflexivity | done]).
Qed.

(** The handle slot is filled only by the request that starts a
    turn. *)
Lemma step_keeps_unbound config s e s' :
  step config s e = Some s' → next_turn s' = next_turn s →
  agent (sess s) = None → agent (sess s') = None.
Proof.
  intros Hstep Hturn Hnone. step_cases; simpl in *; try done; lia.
Qed.

(** With no handle bound, the request that starts a turn builds
    one. *)
Lemma unbound_handle_is_built config s e s' :
  step config s e = Some s' → next_turn s' = S (next_turn s) →
  agent (sess s) = None →
  agents_created s' = S (agents_created s)
  ∧ agent (sess s') = Some (agents_created s).
Proof.
  intros Hstep Hturn Hnone. step_cases; simpl in *; try lia; try congruence; done.
Qed.

Lemma step_next_turn config s e s' :
  step config s e = Some s' → (next_turn s ≤ next_turn s')%nat.
Proof.
  intros Hstep. destruct (step_turn_change _ _ _ _ Hstep); lia.
Qed.

(** The wait after the ceiling is entered by the loop head, once the
    ceiling is reached, and left only by ending the turn. *)
Lemma step_draining config s e s' t gen_start wait_since :
  step config s e = Some s' →
  phase_of s' = Draining t gen_start wait_since →
  (phase_of s = Draining t gen_start wait_since ∧ clock s ≤ clock s')
  ∨ (GENERATION_TIMEOUT ≤ wait_since - gen_start ∧ wait_since = clock s').
Proof.
  intros Hstep Hph. step_cases; simpl in *; simplify_eq;
    first [ left; split; [congruence | lia]
          | right; split; [lia | reflexivity] ].
Qed.

(** *** Lists of messages *)

Lemma turn_msgs_app t a b :
  turn_msgs t (a ++ b) = turn_msgs t a ++ turn_msgs t b.
Proof. unfold turn_msgs. by rewrite filter_app, fmap_app. Qed.

Lemma turn_msgs_one t u m :
  turn_msgs t [Sent u m] = if decide (u = Some t) then [m] else [].
Proof.
  unfold turn_msgs. rewrite filter_cons. simpl.
  destruct (decide (u = Some t)); reflexivity.
Qed.

Lemma turn_msgs_untagged t out :
  (∀ x, x ∈ out → for_turn x ≠ Some t) → turn_msgs t out = [].
Proof.
  unfold turn_msgs. induction out as [|x out IH]; intros Hout; [done|].
  rewrite filter_cons. destruct (decide (for_turn x = Some t)) as [Heq | _].
  - destruct (Hout x); [left | done].
  - apply IH. intros y Hy. apply Hout. by right.
Qed.

Lemma terminals_app a b : terminals (a ++ b) = (terminals a + terminals b)%nat.
Proof. unfold terminals. by rewrite filter_app, length_app. Qed.

Lemma terminals_of_tokens l :
  Forall (λ m, is_token m = true) l → terminals l = 0%nat.
Proof.
  unfold terminals. induction 1 as [|m l Hm _ IH]; [done|].
  rewrite filter_cons.
  destruct (decide (is_terminal m = true)) as [Ht | _]; [| exact IH].
  destruct m; discriminate.
Qed.

Lemma terminals_one m : is_terminal m = true → terminals [m] = 1%nat.
Proof.
  intros Hm. unfold terminals. rewrite filter_cons.
  destruct (decide _); [done | contradiction].
Qed.

(** *** Reachable states *)

Lemma wf_init now : wf (init now).
Proof.
  split; simpl.
  - intros t [w Hw]. by rewrite lookup_empty in Hw.
  - intros x t Hx. by apply elem_of_nil in Hx.
  - intros t [=].
  - intros t. unfold terminals. simpl. lia.
  - intros t gen_start wait_since [=].
Qed.

Lemma active_worker_exists s t :
  in_agent s t → is_Some (workers s !! t).
Proof.
  unfold in_agent, status_of.
  destruct (workers s !! t); [by eexists | intros [|]; discriminate].
Qed.

Lemma wf_step config s e s' : wf s → step config s e = Some s' → wf s'.
Proof.
  intros [Hw Htag Hact Hterm Hdrain] Hstep.
  pose proof (step_next_turn _ _ _ _ Hstep) as Hmono.
  destruct (step_sends _ _ _ _ Hstep) as (ext & Hout & Hext).
  pose proof (step_turn_change _ _ _ _ Hstep) as Hturn.
  split.
  - intros t Hsome.
    destruct (step_worker_change _ _ _ _ t Hstep) as [Heq | w w' Hold _ _ | w' -> Hnext _].
    + rewrite Heq in Hsome. specialize (Hw t Hsome). lia.
    + specialize (Hw t (mk_is_Some _ _ Hold)). lia.
    + lia.
  - intros x t Hx Hfor. rewrite Hout in Hx. apply elem_of_app in Hx as [Hx | Hx].
    + specialize (Htag x t Hx Hfor). lia.
    + destruct Hext as [| m | u c Hu | u m Hm Hu Hidle];
        [ by apply elem_of_nil in Hx | apply list_elem_of_singleton in Hx..];
        subst x; simpl in Hfor; simplify_eq.
      * specialize (Hw t (active_worker_exists _ _ Hu)). lia.
      * destruct (Hact t Hu). lia.
  - intros t Ht.
    destruct Hturn as [Hsame Hnext | Hnone _ | Hidle Hnew Hnext Hkeep _ _].
    + rewrite Hsame in Ht. destruct (Hact t Ht) as [Hlt Htok]. split; [lia|].
      rewrite Hout, turn_msgs_app. apply Forall_app. split; [done|].
      destruct Hext as [| m | u c Hu | u m Hm Hu Hidle]; rewrite ?turn_msgs_one.
      * done.
      * by destruct (decide _).
      * destruct (decide _); [by repeat constructor | done].
      * assert (active_turn s' = None) as Hn
          by (unfold active_turn; by rewrite Hidle).
        congruence.
    + congruence.
    + rewrite Hnew in Ht. simplify_eq. split; [lia|].
      rewrite Hkeep, turn_msgs_untagged; [done|].
      intros x Hx Hfor. specialize (Htag x _ Hx Hfor). lia.
  - intros t. rewrite Hout, turn_msgs_app, terminals_app.
    specialize (Hterm t).
    destruct Hext as [| m | u c Hu | u m Hm Hu Hidle]; rewrite ?turn_msgs_one.
    + unfold terminals at 2. simpl. lia.
    + destruct (decide _); [done|]. unfold terminals at 2. simpl. lia.
    + destruct (decide _); unfold terminals at 2; simpl; lia.
    + destruct (decide _) as [Heq | _]; [| unfold terminals at 2; simpl; lia].
      simplify_eq. destruct (Hact t Hu) as [_ Htok].
      rewrite (terminals_of_tokens _ Htok), (terminals_one _ Hm). lia.
  - intros t gen_start wait_since Hph.
    destruct (step_draining _ _ _ _ _ _ _ Hstep Hph) as [[Hold Hclock] | [Hceil ->]].
    + destruct (Hdrain _ _ _ Hold). lia.
    + lia.
Qed.

Lemma wf_run config s es s' : wf s → run config s es = Some s' → wf s'.
Proof.
  revert s. induction es as [|e es IH]; simpl; intros s Hwf Hrun.
  - by simplify_eq.
  - destruct (step config s e) as [s1|] eqn:Hstep; [|done].
    eapply IH; [eapply wf_step |]; eauto.
Qed.

Lemma settled_step config s e s' t :
  wf s → settled t s → step config s e = Some s' →
  settled t s' ∧ turn_msgs t (outbound s') = turn_msgs t (outbound s).
Proof.
  intros Hwf [[o Hfin] Hact] Hstep.
  assert (t < next_turn s)%nat as Hlt.
  { apply (wf_workers _ Hwf). unfold status_of in Hfin.
    destruct (workers s !! t); [by eexists | discriminate]. }
  repeat split.
  - exists o. unfold status_of in *.
    destruct (step_worker_change _ _ _ _ t Hstep) as [Heq | w w' Hold _ Hnot | w' -> _ _].
    + by rewrite Heq.
    + rewrite Hold in Hfin. simpl in Hfin. simplify_eq; by destruct (Hnot o).
    + lia.
  - destruct (step_turn_change _ _ _ _ Hstep) as [Hsame _ | Hnone _ | _ Hnew _ _ _ _].
    + by rewrite Hsame.
    + by rewrite Hnone.
    + rewrite Hnew. intros [= <-]. lia.
  - destruct (step_sends _ _ _ _ Hstep) as (ext & -> & Hext).
    rewrite turn_msgs_app.
    destruct Hext as [| m | u c Hu | u m Hm Hu Hidle]; rewrite ?turn_msgs_one.
    + simpl. by rewrite app_nil_r.
    + destruct (decide _); [done|]. by rewrite app_nil_r.
    + destruct (decide _) as [Heq | _]; [| by rewrite app_nil_r].
      simplify_eq. destruct Hu; congruence.
    + destruct (decide _) as [Heq | _]; [| by rewrite app_nil_r].
      simplify_eq; congruence.
Qed.

Lemma settled_run config s es s' t :
  wf s → settled t s → run config s es = Some s' →
  turn_msgs t (outbound s') = turn_msgs t (outbound s).
Proof.
  revert s. induction es as [|e es IH]; simpl; intros s Hwf Hset Hrun.
  - by simplify_eq.
  - destruct (step config s e) as [s1|] eqn:Hstep; [|done].
    destruct (settled_step _ _ _ _ _ Hwf Hset Hstep) as [Hset1 <-].
    eapply IH; [eapply wf_step | |]; eauto.
Qed.

Lemma run_next_turn config s es s' :
  run config s es = Some s' → (next_turn s ≤ next_turn s')%nat.
Proof.
  revert s. induction es as [|e es IH]; simpl; intros s Hrun.
  - by simplify_eq.
  - destruct (step config s e) as [s1|] eqn:Hstep; [|done].
    pose proof (step_next_turn _ _ _ _ Hstep). specialize (IH _ Hrun). lia.
Qed.

Lemma run_keeps_unbound config s es s' :
  run config s es = Some s' → next_turn s' = next_turn s →
  agent (sess s) = None → agent (sess s') = None.
Proof.
  revert s. induction es as [|e es IH]; simpl; intros s Hrun Hturn Hnone.
  - by simplify_eq.
  - destruct (step config s e) as [s1|] eqn:Hstep; [|done].
    pose proof (step_next_turn _ _ _ _ Hstep).
    pose proof (run_next_turn _ _ _ _ Hrun).
    apply (IH s1 Hrun); [lia|].
    eapply step_keeps_unbound; eauto. lia.
Qed.

(** *** The stream of a turn (C1) *)

Lemma single_token_is_no_turn_stream (c : string) (l : list out_msg) :
  ¬ turn_stream (l ++ [Token c]).
Proof.
  intros (toks & term & Heq & _ & Hterm).
  apply app_inj_tail in Heq as [_ <-]. discriminate.
Qed.

(** C1, as stated, fails in two ways. A turn cut short by the client
    going away leaves the connection closed with one token and no
    terminal message sent for the turn, and nothing more can happen on
    it. A turn whose worker is left behind when the wait after the
    ceiling runs out has its terminal [error] followed by a token,
    once the next turn has cleared the cancellation signal the two
    turns share. *)
Lemma turn_stream_counterexamples :
  (∃ s, run Config.defaults (init 0) dropped_connection = Some s
        ∧ next_turn s = 1%nat
        ∧ turn_msgs 0 (outbound s) = [Token "a"]
        ∧ (∀ e, step Config.defaults s e = None)
        ∧ ¬ turn_stream (turn_msgs 0 (outbound s)))
  ∧ (∃ s, run Config.defaults (init 0) abandoned_then_next_turn = Some s
          ∧ turn_msgs 0 (outbound s) = [Error timeout_text; Token "late"]
          ∧ ¬ turn_stream (turn_msgs 0 (outbound s))).
Proof.
  split.
  - eexists. split; [vm_compute; reflexivity|].
    repeat split. apply (single_token_is_no_turn_stream "a" []).
  - eexists. split; [vm_compute; reflexivity|].
    split; [vm_compute; reflexivity|].
    apply (single_token_is_no_turn_stream "late" [Error timeout_text]).
Qed.

Lemma at_most_one_terminal config now es s t :
  run config (init now) es = Some s →
  (terminals (turn_msgs t (outbound s)) ≤ 1)%nat.
Proof. intros Hrun. eapply wf_terminals, wf_run; [apply wf_init | done]. Qed.

(** The step that closes the connection during a turn sends nothing
    for that turn but, at most, a token. *)
Lemma step_closes_quietly config s e s' t :
  step config s e = Some s' → phase_of s' = Closed →
  Forall (λ m, is_token m = true) (turn_msgs t (outbound s)) →
  Forall (λ m, is_token m = true) (turn_msgs t (outbound s')).
Proof.
  intros Hstep Hclosed Htok.
  destruct (step_sends _ _ _ _ Hstep) as (ext & -> & Hext).
  rewrite turn_msgs_app. apply Forall_app. split; [done|].
  destruct Hext as [| m | u c Hu | u m Hm Hu Hidle]; rewrite ?turn_msgs_one.
  - done.
  - by destruct (decide _).
  - destruct (decide _); [by repeat constructor | done].
  - congruence.
Qed.

Lemma closed_is_final config s es s' :
  phase_of s = Closed → run config s es = Some s' → s' = s.
Proof.
  intros Hclosed Hrun. destruct es as [|e es]; simpl in Hrun; [by simplify_eq|].
  unfold step in Hrun. by rewrite Hclosed in Hrun.
Qed.

(** C1, amended. When the orchestrator ends a turn whose worker has
    finished, with the connection still open, the messages sent for
    that turn are zero or more tokens followed by one terminal
    message, and no message is ever sent for that turn again. When
    the step that ends a turn closes the connection, as the read of
    a client disconnect always does, the messages sent for that turn
    are tokens only: it has no terminal message, and nothing more
    happens on the connection. In every reachable state no turn has
    more than one terminal message. *)
Theorem collected_turn_stream config now es s e s' t :
  run config (init now) es = Some s →
  active_turn s = Some t →
  step config s e = Some s' →
  active_turn s' ≠ Some t →
  ((∃ o, status_of s t = Some (Finished o)) → phase_of s' ≠ Closed →
   turn_stream (turn_msgs t (outbound s'))
   ∧ ∀ es' s'', run config s' es' = Some s'' →
       turn_msgs t (outbound s'') = turn_msgs t (outbound s'))
  ∧ (e = Recv Disconnect → phase_of s' = Closed)
  ∧ (phase_of s' = Closed →
     Forall (λ m, is_token m = true) (turn_msgs t (outbound s'))
     ∧ terminals (turn_msgs t (outbound s')) = 0%nat
     ∧ ∀ es' s'', run config s' es' = Some s'' → s'' = s')
  ∧ (∀ es' s'' u, run config s' es' = Some s'' →
       (terminals (turn_msgs u (outbound s'')) ≤ 1)%nat).
Proof.
  intros Hrun Hact Hstep Hact'.
  assert (wf s) as Hwf by (eapply wf_run; [apply wf_init | done]).
  assert (wf s') as Hwf' by (eapply wf_step; eauto).
  destruct (wf_active _ Hwf t Hact) as [Hlt Htok].
  split; [|split; [|split]].
  - intros [o Hfin] Hopen.
    destruct (step_ends_turn _ _ _ _ _ Hstep Hact Hact' Hopen)
      as (m & Hout & Hm & Hidle).
    split.
    + exists (turn_msgs t (outbound s)), m. split; [|done].
      rewrite Hout, turn_msgs_app, turn_msgs_one. by destruct (decide _).
    + intros es' s'' Hrun'. eapply settled_run; [done | | done].
      split; [|done]. exists o. unfold status_of in *.
      destruct (step_worker_change _ _ _ _ t Hstep)
        as [Heq | w w' Hold _ Hnot | w' -> _ _].
      * by rewrite Heq.
      * rewrite Hold in Hfin. simpl in Hfin. simplify_eq; by destruct (Hnot o).
      * lia.
  - intros ->. unfold active_turn in Hact. unfold step, listen in Hstep.
    destruct (phase_of s); simplify_eq; done.
  - intros Hclosed.
    pose proof (step_closes_quietly _ _ _ _ t Hstep Hclosed Htok) as Htok'.
    split; [done|]. split; [by apply terminals_of_tokens|].
    intros es' s''. by apply closed_is_final.
  - intros es' s'' u Hrun'. eapply wf_terminals, wf_run; eauto.
Qed.

Lemma collected_turn_stream_witness :
  turn_msgs 0 (outbound (state_after (short_turn ++ [Poll])))
    = [Token "a"; Token "b"; Done "ab"]
  ∧ turn_stream (turn_msgs 0 (outbound (state_after (short_turn ++ [Poll]))))
  ∧ terminals (turn_msgs 0 (outbound (state_after dropped_connection))) = 0%nat.
Proof.
  split; [vm_compute; reflexivity|]. split.
  - apply (collected_turn_stream Config.defaults 0 short_turn
             (state_after short_turn) Poll (state_after (short_turn ++ [Poll])) 0%nat).
    + vm_compute; reflexivity.
    + reflexivity.
    + vm_compute; reflexivity.
    + discriminate.
    + eexists. vm_compute. reflexivity.
    + discriminate.
  - apply (collected_turn_stream Config.defaults 0 mid_turn
             (state_after mid_turn) (Recv Disconnect)
             (state_after dropped_connection) 0%nat).
    + vm_compute; reflexivity.
    + reflexivity.
    + vm_compute; reflexivity.
    + discriminate.
    + reflexivity.
Defined.

Ltac bool_hyps :=
  repeat match goal with
         | H : _ || _ = true |- _ => apply orb_true_iff in H
         | H : _ || _ = false |- _ => apply orb_false_iff in H
         | H : _ && _ = true |- _ => apply andb_true_iff in H
         | H : _ ∧ _ |- _ => destruct H
         | H : bool_decide _ = true |- _ => apply bool_decide_eq_true in H
         | H : bool_decide _ = false |- _ => apply bool_decide_eq_false in H
         | H : negb _ = true |- _ => apply negb_true_iff in H
         | H : ¬ (_ ≠ _) |- _ => apply dec_stable in H
         end.

(** *** The agent handle cache (C2) *)

(** C2, as stated, fails: a second request that spells the provider
    [Bedrock] has the same effective tuple as the handle built for
    [bedrock], no [new_conversation] was received and a handle is
    bound, yet a new handle is built. *)
Lemma same_effective_tuple_still_rebuilds :
  ∃ s s' mc mt,
    run Config.defaults (init 0) first_turn_lowercase = Some s
    ∧ phase_of s = Idle
    ∧ agent (sess s) = Some 0%nat
    ∧ current_config (sess s) = Some mc
    ∧ current_mode_type (sess s) = Some mt
    ∧ step Config.defaults s (Recv (Object (ask_with_provider "Hi again" "Bedrock")))
      = Some s'
    ∧ effective_tuple Config.defaults
        (Agent.from_request (Request.config (ask_with_provider "Hi again" "Bedrock")))
        (request_mode_type (ask_with_provider "Hi again" "Bedrock"))
      = effective_tuple Config.defaults mc mt
    ∧ agents_created s = 1%nat
    ∧ agents_created s' = 2%nat
    ∧ agent (sess s') = Some 1%nat.
Proof.
  eexists _, _, _, _.
  split; [vm_compute; reflexivity|].
  split; [reflexivity|].
  split; [reflexivity|].
  split; [reflexivity|].
  split; [reflexivity|].
  split; [vm_compute; reflexivity|].
  split; [vm_compute; reflexivity|].
  repeat split.
Qed.

Lemma new_conversation_unbinds config s c s' :
  Request.type c = Some "new_conversation" →
  step config s (Recv (Object c)) = Some s' → agent (sess s') = None.
Proof. intros Hc Hs. step_cases; bool_hyps; simpl in *; congruence. Qed.

(** C2, amended. A request that starts a turn builds a new handle
    exactly when no handle is bound, or the configuration as the
    request gives it (before any fallback to defaults or change of
    case) differs from the bound one, or the mode type differs from
    the bound one; otherwise the bound handle is kept. Either way the
    turn runs on the bound handle, which is bound to the request's
    configuration and mode type. A [new_conversation] message leaves
    no handle bound. *)
Theorem handle_rebuilt_iff_binding_differs config s e s' :
  step config s e = Some s' →
  next_turn s' = S (next_turn s) →
  ∃ r,
    e = Recv (Object r)
    ∧ phase_of s = Idle
    ∧ current_config (sess s') = Some (Agent.from_request (Request.config r))
    ∧ current_mode_type (sess s') = Some (request_mode_type r)
    ∧ (∃ w, workers s' !! next_turn s = Some w ∧ agent (sess s') = Some (w_agent w))
    ∧ (agent (sess s) = None
       ∨ current_config (sess s) ≠ Some (Agent.from_request (Request.config r))
       ∨ current_mode_type (sess s) ≠ Some (request_mode_type r) →
       agents_created s' = S (agents_created s)
       ∧ agent (sess s') = Some (agents_created s))
    ∧ (¬ (agent (sess s) = None
          ∨ current_config (sess s) ≠ Some (Agent.from_request (Request.config r))
          ∨ current_mode_type (sess s) ≠ Some (request_mode_type r)) →
       agents_created s' = agents_created s
       ∧ agent (sess s') = agent (sess s))
    ∧ (∀ s1 c s2, Request.type c = Some "new_conversation" →
         step config s1 (Recv (Object c)) = Some s2 → agent (sess s2) = None).
Proof.
  intros Hstep Hturn.
  step_cases; simpl in *; try lia.
  all: eexists; split; [reflexivity|]; split; [done|].
  all: bool_hyps.
  all: repeat match goal with H : _ ∨ _ |- _ => destruct H end; bool_hyps.
  all: repeat split; try done; try (eexists; split; [apply lookup_insert_eq | done]).
  all: try (by apply new_conversation_unbinds).
  all: try congruence.
  all: exfalso; intuition congruence.
Qed.

Lemma handle_rebuilt_iff_binding_differs_witness :
  agents_created (state_after (first_turn ++ [Recv (Object (ask "Again"))]))
    = agents_created (state_after first_turn)
  ∧ agent (sess (state_after (first_turn ++ [Recv (Object (ask "Again"))])))
    = agent (sess (state_after first_turn)).
Proof.
  destruct (handle_rebuilt_iff_binding_differs Config.defaults
              (state_after first_turn) (Recv (Object (ask "Again")))
              (state_after (first_turn ++ [Recv (Object (ask "Again"))])))
    as (r & He & _ & _ & _ & _ & _ & Hkeep & _);
    [vm_compute; reflexivity | reflexivity |].
  injection He as <-. apply Hkeep. vm_compute.
  intros [[=] | [Hn | Hn]]; by apply Hn.
Defined.

(** *** The timeout (C3) *)

(** C3, as stated, fails: a generation still running 121 seconds
    after its start, past the 120-second ceiling, that returns during
    the wait that follows the ceiling ends its turn with [done], not
    with an error, and the next turn with the same configuration and
    mode type keeps the handle. *)
Lemma late_return_within_grace_is_done :
  ∃ s s1 s2,
    run Config.defaults (init 0) slow_turn = Some s
    ∧ phase_of s = Draining 0 0 120000
    ∧ clock s = 121000
    ∧ status_of s 0 = Some Active
    ∧ run Config.defaults s late_return = Some s1
    ∧ outbound s1 = [Sent (Some 0%nat) (Done "Too late")]
    ∧ agent (sess s1) = Some 0%nat
    ∧ step Config.defaults s1 (Recv (Object (ask "Hang forever"))) = Some s2
    ∧ next_turn s2 = 2%nat
    ∧ agents_created s2 = agents_created s1
    ∧ agent (sess s2) = Some 0%nat.
Proof.
  eexists _, _, _.
  split; [vm_compute; reflexivity|].
  split; [reflexivity|].
  split; [reflexivity|].
  split; [reflexivity|].
  split; [vm_compute; reflexivity|].
  split; [reflexivity|].
  split; [reflexivity|].
  split; [vm_compute; reflexivity|].
  repeat split.
Qed.

Lemma unfinished_status s t :
  (∀ o, status_of s t ≠ Some (Finished o)) →
  match status_of s t with Some (Finished _) => False | _ => True end.
Proof. intros H. destruct (status_of s t) as [[| | |o]|]; try done. by apply (H o). Qed.

(** C3, amended. A listener wake-up that finds the worker unfinished
    with the 120-second ceiling reached sets the cancellation signal
    and starts the 5-second wait. If the worker is still unfinished
    when that wait is over, which is at least 125 seconds after the
    start of the generation, exactly one message is sent, the turn's
    terminal [error] with the timeout text, after nothing but tokens,
    and the handle is dropped: until the next turn starts no handle is
    bound, and the request that starts the next turn builds a new one
    whatever its configuration and mode type. If the worker has
    finished when the wait returns, the turn ends by the worker's own
    outcome and the session is left as it is: [done] with what the
    agent returned, [cancelled] for the cancellation error, [error]
    with the friendly text for another exception; except that a
    timeout error raised by the worker itself gets the timeout text
    and drops the handle as well, and a disconnect closes the
    connection without a message. The wait does not return before 5
    seconds unless the worker has finished. *)
Theorem timeout_after_grace_forces_rebuild
    config now es0 s0 es s t gen_start wait_since0 wait_since :
  run config (init now) es0 = Some s0 →
  phase_of s0 = Running t gen_start wait_since0 →
  (∀ o, status_of s0 t ≠ Some (Finished o)) →
  GENERATION_TIMEOUT ≤ clock s0 - gen_start →
  run config (init now) es = Some s →
  phase_of s = Draining t gen_start wait_since →
  step config s0 Poll
    = Some (with_phase (Draining t gen_start (clock s0))
              (with_sess (set_cancel true) s0))
  ∧ ((∀ o, status_of s t ≠ Some (Finished o)) →
     (clock s - wait_since < GRACE_PERIOD → step config s GraceOver = None)
     ∧ (GRACE_PERIOD ≤ clock s - wait_since →
        ∃ s1,
          step config s GraceOver = Some s1
          ∧ outbound s1 = outbound s ++ [Sent (Some t) (Error timeout_text)]
          ∧ (∃ toks, turn_msgs t (outbound s1) = toks ++ [Error timeout_text]
                     ∧ Forall (λ m, is_token m = true) toks)
          ∧ phase_of s1 = Idle
          ∧ agent (sess s1) = None
          ∧ GENERATION_TIMEOUT + GRACE_PERIOD ≤ clock s - gen_start
          ∧ ∀ es1 s2 e s3,
              run config s1 es1 = Some s2 → next_turn s2 = next_turn s1 →
              agent (sess s2) = None
              ∧ (step config s2 e = Some s3 → next_turn s3 = S (next_turn s2) →
                 agents_created s3 = S (agents_created s2)
                 ∧ agent (sess s3) = Some (agents_created s2))))
  ∧ (∀ o, status_of s t = Some (Finished o) →
       ∃ s1,
         step config s GraceOver = Some s1
         ∧ match o with
           | Returned c =>
               outbound s1 = outbound s ++ [Sent (Some t) (Done c)]
               ∧ phase_of s1 = Idle ∧ sess s1 = sess s
           | Raised e =>
               match exn_class_of e with
               | CancellationError =>
                   outbound s1 = outbound s ++ [Sent (Some t) Cancelled]
                   ∧ phase_of s1 = Idle ∧ sess s1 = sess s
               | TimeoutError =>
                   outbound s1 = outbound s ++ [Sent (Some t) (Error timeout_text)]
                   ∧ phase_of s1 = Idle ∧ sess s1 = reset_agent (sess s)
               | WebSocketDisconnect =>
                   outbound s1 = outbound s ∧ phase_of s1 = Closed
               | Other _ =>
                   outbound s1 = outbound s ++ [Sent (Some t) (Error (_friendly_error e))]
                   ∧ phase_of s1 = Idle ∧ sess s1 = sess s
               end
           end).
Proof.
  intros Hrun0 Hph0 Hun0 Hceil Hrun Hph.
  apply unfinished_status in Hun0.
  split; [|split].
  - unfold step, wait_over, loop_head. rewrite Hph0.
    destruct (status_of s0 t) as [[| | |o]|]; try done.
    all: rewrite (proj2 (Z.leb_le _ _)) by (unfold GENERATION_TIMEOUT, LISTEN_SLICE in *; lia).
    all: by rewrite (proj2 (Z.leb_le _ _)) by (unfold GENERATION_TIMEOUT in *; lia).
  - intros Hun. apply unfinished_status in Hun. split.
    { intros Hearly. unfold step. rewrite Hph.
      destruct (status_of s t) as [[| | |o]|]; try done.
      all: by rewrite (proj2 (Z.leb_gt _ _)) by done. }
    intros Hgrace.
    assert (wf s) as Hwf by (eapply wf_run; [apply wf_init | done]).
    eexists. split.
    { unfold step. rewrite Hph.
      destruct (status_of s t) as [[| | |o]|]; try done.
      all: by rewrite (proj2 (Z.leb_le _ _)) by done. }
    assert (active_turn s = Some t) as Hact by (unfold active_turn; by rewrite Hph).
    destruct (wf_active _ Hwf t Hact) as [_ Htok].
    split; [reflexivity|]. split.
    { exists (turn_msgs t (outbound s)). split; [|done].
      simpl. rewrite turn_msgs_app, turn_msgs_one. by destruct (decide _). }
    split; [reflexivity|]. split; [reflexivity|].
    split; [destruct (wf_draining _ Hwf _ _ _ Hph); lia|].
    intros es1 s2 e s3 Hrun1 Hsame.
    assert (agent (sess s2) = None) as Hnone
      by (eapply run_keeps_unbound; [exact Hrun1 | exact Hsame | reflexivity]).
    split; [done|]. intros Hstep Hnext.
    by apply (unbound_handle_is_built _ _ _ _ Hstep Hnext).
  - intros o Hfin. exists (resolve t o s). split.
    { unfold step. by rewrite Hph, Hfin. }
    unfold resolve. destruct o as [c | [[| | | etype] text]]; simpl; by repeat split.
Qed.

Lemma timeout_after_grace_forces_rebuild_witness :
  clock (state_after grace_elapsed) = 125000
  ∧ (∃ s1,
       step Config.defaults (state_after grace_elapsed) GraceOver = Some s1
       ∧ outbound s1 = [Sent (Some 0%nat) (Error timeout_text)]
       ∧ agent (sess s1) = None)
  ∧ ∃ s1,
      step Config.defaults (state_after (slow_turn ++ [AgentReturns 0 "Too late"]))
        GraceOver = Some s1
      ∧ outbound s1 = [Sent (Some 0%nat) (Done "Too late")]
      ∧ sess s1 = sess (state_after (slow_turn ++ [AgentReturns 0 "Too late"])).
Proof.
  split; [reflexivity|]. split.
  - destruct (timeout_after_grace_forces_rebuild Config.defaults 0
                ceiling_reached (state_after ceiling_reached)
                grace_elapsed (state_after grace_elapsed) 0%nat 0 119000 120000)
      as (_ & Hlate & _).
    + vm_compute; reflexivity.
    + reflexivity.
    + intros o. vm_compute. discriminate.
    + vm_compute. discriminate.
    + vm_compute; reflexivity.
    + reflexivity.
    + destruct Hlate as [_ (s1 & Hstep & Hout & _ & _ & Hnone & _)].
      * intros o. vm_compute. discriminate.
      * vm_compute. discriminate.
      * exists s1. by repeat split.
  - destruct (timeout_after_grace_forces_rebuild Config.defaults 0
                ceiling_reached (state_after ceiling_reached)
                (slow_turn ++ [AgentReturns 0 "Too late"])
                (state_after (slow_turn ++ [AgentReturns 0 "Too late"]))
                0%nat 0 119000 120000)
      as (_ & _ & Hdone).
    + vm_compute; reflexivity.
    + reflexivity.
    + intros o. vm_compute. discriminate.
    + vm_compute. discriminate.
    + vm_compute; reflexivity.
    + reflexivity.
    + destruct (Hdone (Returned "Too late")) as (s1 & Hstep & Hout & _ & Hsess);
        [reflexivity|].
      exists s1. by repeat split.
Defined.

(** *** Frames the cancel listener passes over *)



(** *** Validation of the prompt (C7) *)




(** *** A cancel between turns (C8) *)



(** *** Frames read while the agent runs (C10) *)

(** C10 fails on a frame that parses to something other than an
    object. Received while turn 0 is running, the array is answered
    with an [error] message, the orchestrator leaves the turn while
    its worker is still inside the agent, and the worker's later token
    follows the error; the result of the agent is never sent. *)
Theorem non_object_frame_is_answered :
  ∃ s s1 s2,
    run Config.defaults (init 0) mid_turn = Some s
    ∧ phase_of s = Running 0 0 0
    ∧ status_of s 0 = Some Active
    ∧ step Config.defaults s (Recv (NonObject "list")) = Some s1
    ∧ outbound s1 =
        outbound s
          ++ [Sent (Some 0%nat)
                (Error "AttributeError: 'list' object has no attribute 'get'")]
    ∧ phase_of s1 = Idle
    ∧ status_of s1 0 = Some Active
    ∧ run Config.defaults s1 rest_of_turn = Some s2
    ∧ turn_msgs 0 (outbound s2) =
        [Token "a";
         Error "AttributeError: 'list' object has no attribute 'get'";
         Token "b"]
    ∧ phase_of s2 = Idle
    ∧ status_of s2 0 = Some (Finished (Returned "ab")).
Proof.
  eexists _, _, _.
  split; [vm_compute; reflexivity|].
  split; [reflexivity|].
  split; [reflexivity|].
  split; [vm_compute; reflexivity|].
  split; [reflexivity|].
  split; [reflexivity|].
  split; [reflexivity|].
  split; [vm_compute; reflexivity|].
  repeat split.
Qed.

(** The same holds in every running state: a non-object frame ends the
    turn with an [error] message, whatever the worker is doing. *)
Lemma non_object_frame_ends_the_turn config s t gen_start wait_since pytype :
  phase_of s = Running t gen_start wait_since →
  ∃ content,
    step config s (Recv (NonObject pytype))
      = Some (with_phase Idle (send_text (Some t) (Error content) s)).
Proof. intros Hrun. unfold step, listen, resolve. rewrite Hrun. by eexists. Qed.

(** *** The bridge's bounded wait (C6) *)

(** C6, as stated, fails on its last clause but one: a send that does
    not complete within the bound is logged, not dropped. Here the
    send of the token ["a"] takes six seconds: the invocation returns
    after five with a warning and leaves the send pending on the
    event loop, where nothing cancels it; the token is the first
    message of the turn's stream and [done] follows it. *)
Lemma slow_send_is_not_dropped :
  ∃ self' sr s,
    __call__ (new_handler 0) false 0
      {| kw_data := Some "a"; kw_complete := None |} (SendCompletes 6000)
      = Returned (self', Some sr)
    ∧ waited sr = 5000
    ∧ warning sr = Some "Failed to send WS message: "
    ∧ left_pending sr = true
    ∧ run Config.defaults (init 0)
        [Recv (Object (ask "Hello")); WorkerStart 0;
         Callback 0 {| kw_data := Some "a"; kw_complete := None |}
           (SendCompletes 6000);
         AgentReturns 0 "a"; Poll] = Some s
    ∧ log s = ["Failed to send WS message: "]
    ∧ turn_msgs 0 (outbound s) = [Token "a"; Done "a"].
Proof.
  eexists _, _, _.
  split; [vm_compute; reflexivity|].
  split; [reflexivity|]. split; [reflexivity|]. split; [reflexivity|].
  split; [vm_compute; reflexivity|].
  split; reflexivity.
Qed.

(** C6, amended. A callback invocation that finds the signal set
    raises before any send is scheduled. One that finds it clear
    returns; when it carries data it schedules one token send and
    waits for it no longer than 5000 ms. A send that completes within
    5000 ms is waited for to its end and nothing is logged; one that
    raises within 5000 ms is waited for to its end and logged with
    the text of the exception; in both cases no send is left
    pending. A send that does neither within 5000 ms is waited for
    5000 ms and logged with an empty text, and the invocation returns
    with the send still pending: it is not cancelled. Whatever
    becomes of the send, the token is part of the turn's outbound
    sequence. *)
Theorem callback_waits_for_send_with_bound
    (self : StreamingCallbackHandler) (now : Z) (kw : kwargs) (o : send_outcome) :
  __call__ self true now kw o
    = Raised (Exn CancellationError "Generation cancelled by client")
  ∧ (∃ self' rep,
    __call__ self false now kw o = Returned (self', rep)
    ∧ (rep = None ↔ get_default (kw_data kw) "" = "")
    ∧ ∀ sr, rep = Some sr →
        scheduled sr = Token (get_default (kw_data kw) "")
        ∧ 0 ≤ waited sr ≤ 5000
        ∧ match o with
          | SendCompletes after =>
              if decide (after ≤ 5000)
              then warning sr = None
                   ∧ waited sr = Z.max 0 after
                   ∧ left_pending sr = false
              else warning sr = Some "Failed to send WS message: "
                   ∧ waited sr = 5000
                   ∧ left_pending sr = true
          | SendRaises after e =>
              if decide (after ≤ 5000)
              then warning sr = Some ("Failed to send WS message: " +:+ exn_msg e)
                   ∧ waited sr = Z.max 0 after
                   ∧ left_pending sr = false
              else warning sr = Some "Failed to send WS message: "
                   ∧ waited sr = 5000
                   ∧ left_pending sr = true
          | SendNeverCompletes =>
              warning sr = Some "Failed to send WS message: "
              ∧ waited sr = 5000
              ∧ left_pending sr = true
          end)
  ∧ ∀ config s t data,
      phase_of s ≠ Closed →
      status_of s t = Some Active →
      cancel_event (sess s) = false →
      kw_data kw = Some data →
      data ≠ "" →
      ∃ s', step config s (Callback t kw o) = Some s'
            ∧ outbound s' = outbound s ++ [Sent (Some t) (Token data)]
            ∧ status_of s' t = Some Active.
Proof.
  split; [reflexivity|]. split.
  - unfold __call__. destruct (truthy _) eqn:Hdata.
    + eexists _, _. split; [reflexivity|]. split.
      * apply MessageProps.truthy_nonempty in Hdata. split; [discriminate | done].
      * intros sr [= <-]. unfold _send_ws_message, future_result, future_done,
          SEND_TIMEOUT.
        destruct o as [after | after e |]; simpl.
        -- destruct (decide (after ≤ 5000)) as [Hle | Hgt].
           ++ rewrite (proj2 (Z.leb_le _ _)) by done. simpl. repeat split; lia.
           ++ rewrite (proj2 (Z.leb_gt _ _)) by lia. simpl. repeat split; lia.
        -- destruct (decide (after ≤ 5000)) as [Hle | Hgt].
           ++ rewrite (proj2 (Z.leb_le _ _)) by done. simpl. repeat split; lia.
           ++ rewrite (proj2 (Z.leb_gt _ _)) by lia. simpl. repeat split; lia.
        -- repeat split; lia.
    + eexists _, _. split; [reflexivity|]. split.
      * apply MessageProps.truthy_empty in Hdata. done.
      * discriminate.
  - intros config s t data Hopen Hactive Hflag Hkw Hdata.
    unfold status_of in Hactive.
    destruct (workers s !! t) as [w|] eqn:Hw; [|done].
    simpl in Hactive. injection Hactive as Hst.
    apply MessageProps.truthy_nonempty in Hdata.
    unfold step. rewrite Hw, Hst.
    unfold callback, callback_reading, __call__. rewrite Hflag, Hkw. simpl.
    rewrite Hdata.
    destruct (phase_of s) eqn:Hp; [| | |done].
    all: unfold _send_ws_message; destruct (future_result _ _) as [? []]; simpl;
      eexists; (split; [reflexivity|]); simpl;
      (split; [reflexivity|]); unfold status_of; simpl;
      rewrite lookup_insert_eq; simpl; by rewrite Hst.
Qed.

Lemma callback_waits_for_send_with_bound_witness :
  (∃ self' sr,
    __call__ (new_handler 0) false 7
      {| kw_data := Some "tok"; kw_complete := None |} SendNeverCompletes
      = Returned (self', Some sr)
    ∧ waited sr = 5000
    ∧ warning sr = Some "Failed to send WS message: "
    ∧ left_pending sr = true)
  ∧ ∃ s', step Config.defaults (state_after mid_turn)
            (Callback 0 {| kw_data := Some "tok"; kw_complete := None |}
               SendNeverCompletes) = Some s'
          ∧ outbound s' =
              outbound (state_after mid_turn) ++ [Sent (Some 0%nat) (Token "tok")].
Proof.
  destruct (callback_waits_for_send_with_bound (new_handler 0) 7
              {| kw_data := Some "tok"; kw_complete := None |} SendNeverCompletes)
    as (_ & (self' & rep & Hcall & _ & Hrep) & Hstep).
  split.
  - destruct rep as [sr|]; [| vm_compute in Hcall; discriminate].
    destruct (Hrep sr eq_refl) as (_ & _ & Hwarn & Hwait & Hpending).
    by exists self', sr.
  - destruct (Hstep Config.defaults (state_after mid_turn) 0%nat "tok")
      as (s' & H1 & H2 & _); try done.
    by exists s'.
Defined.

End ServerProps.

(** * Further properties *)

(** ** Substrings *)

Module PyProps.
Import Py.

Lemma prefix_app (s b : string) : String.prefix s (s +:+ b) = true.
Proof.
  induction s as [|c s IH]; simpl; [by destruct b|].
  destruct (ascii_dec c c); [exact IH | done].
Qed.

Lemma contains_prefix (sub s : string) :
  String.prefix sub s = true → contains sub s = true.
Proof. intros H. destruct s; simpl in *; by rewrite H. Qed.

Lemma contains_app (sub a b : string) : contains sub (a +:+ sub +:+ b) = true.
Proof.
  induction a as [|c a IH].
  - change ("" +:+ sub +:+ b) with (sub +:+ b). apply contains_prefix, prefix_app.
  - change (String c a +:+ sub +:+ b) with (String c (a +:+ sub +:+ b)).
    cbn [contains]. rewrite IH. by case_match.
Qed.

Lemma append_empty_r (s : string) : s +:+ "" = s.
Proof.
  induction s as [|c s IH]; [done|].
  change (String c s +:+ "") with (String c (s +:+ "")). by rewrite IH.
Qed.

Lemma contains_at_end (sub a : string) : contains sub (a +:+ sub) = true.
Proof.
  rewrite <- (append_empty_r sub) at 2. apply contains_app.
Qed.

Lemma contains_at_start (sub b : string) : contains sub (sub +:+ b) = true.
Proof. exact (contains_app sub "" b). Qed.

Lemma contains_self (s : string) : contains s s = true.
Proof. apply (contains_at_end s ""). Qed.

Lemma contains_skip (sub a s : string) :
  contains sub s = true → contains sub (a +:+ s) = true.
Proof.
  intros H. induction a as [|c a IH]; [done|].
  change (String c a +:+ s) with (String c (a +:+ s)).
  cbn [contains]. rewrite IH. by case_match.
Qed.

Ltac find_substring :=
  repeat first [ apply contains_self | apply contains_at_start
               | apply contains_skip ].

End PyProps.

(** ** The streaming endpoint, further *)

Module StreamProps.
Import Py Message Server Vocabulary Observations MessageProps ServerProps PyProps.

Lemma step_handler_effect config s e s' :
  step config s e = Some s' → handler_effect s s'.
Proof.
  intros Hstep. destruct e.
  - step_cases; (eapply effect_time; [|reflexivity..]); lia.
  - step_cases;
      first [ by (apply (effect_coroutine _ _ []);
                  [done | by rewrite app_nil_r | constructor | by left])
            | by (eapply (effect_coroutine _ _ [_]);
                  [done | reflexivity | by repeat constructor | by left])
            | by (apply (effect_coroutine _ _ []);
                  [done | by rewrite app_nil_r | constructor
                  | right; eexists; split; reflexivity]) ].
  - step_cases;
      first [ by (apply (effect_coroutine _ _ []);
                  [done | by rewrite app_nil_r | constructor | by left])
            | by (eapply (effect_coroutine _ _ [_]);
                  [done | reflexivity | by repeat constructor | by left]) ].
  - step_cases;
      first [ by (apply (effect_coroutine _ _ []);
                  [done | by rewrite app_nil_r | constructor | by left])
            | by (eapply (effect_coroutine _ _ [_]);
                  [done | reflexivity | by repeat constructor | by left]) ].
  - step_cases; by eapply effect_worker.
  - step_cases;
      first [ by eapply effect_worker
            | eapply effect_token; simpl; try done;
              match goal with H : first_token_time _ = _ |- _ => by rewrite H end ].
  - step_cases; by eapply effect_worker.
  - step_cases;
      first [ by eapply effect_worker
            | eapply effect_token; simpl; try done;
              match goal with H : first_token_time _ = _ |- _ => by rewrite H end ].
  - step_cases; by eapply effect_worker.
  - step_cases; by eapply effect_worker.
  - step_cases.
    by (apply (effect_coroutine _ _ []);
        [done | by rewrite app_nil_r | constructor | by left]).
Qed.

Lemma tokens_sent_app_quiet t out ext :
  Forall (λ x, is_token (msg x) = false) ext →
  tokens_sent t (out ++ ext) = tokens_sent t out.
Proof.
  intros Hext. unfold tokens_sent. rewrite turn_msgs_app, filter_app, length_app.
  assert (filter (λ m, is_token m = true) (turn_msgs t ext) = []) as ->; [|simpl; lia].
  induction Hext as [|x ext Hx _ IH]; [done|].
  unfold turn_msgs in *. rewrite filter_cons.
  destruct (decide (for_turn x = Some t)); [|done].
  rewrite fmap_cons, filter_cons.
  destruct (decide (is_token (msg x) = true)); [congruence | done].
Qed.

Lemma tokens_sent_app_token t u out c :
  tokens_sent t (out ++ [Sent (Some u) (Token c)]) =
    if decide (u = t) then S (tokens_sent t out) else tokens_sent t out.
Proof.
  unfold tokens_sent.
  rewrite turn_msgs_app, turn_msgs_one, filter_app, length_app.
  destruct (decide (u = t)) as [-> | Hne].
  - rewrite decide_True by done. simpl. lia.
  - rewrite decide_False by congruence. simpl. lia.
Qed.

Lemma tokens_sent_fresh s : wf s → tokens_sent (next_turn s) (outbound s) = 0%nat.
Proof.
  intros Hwf. unfold tokens_sent. rewrite turn_msgs_untagged; [done|].
  intros x Hx Hfor. pose proof (wf_tags _ Hwf _ _ Hx Hfor). lia.
Qed.

Lemma handler_ok_step config s e s' :
  wf s → (∀ t w, workers s !! t = Some w → handler_ok s t w) →
  step config s e = Some s' →
  ∀ t w, workers s' !! t = Some w → handler_ok s' t w.
Proof.
  intros Hwf Hok Hstep t w' Hw'.
  destruct (step_handler_effect _ _ _ _ Hstep)
    as [dt Hdt Hclock Hworkers Hout
       | ext Hclock Hout Hext Hworkers
       | u w0 w1 Hclock Hout Hw0 Hworkers Hsame
       | u w0 w1 c Hclock Hout Hw0 Hworkers Hcount Hstart Hfirst].
  - rewrite Hworkers in Hw'. destruct (Hok t w' Hw') as [H1 H2 H3 H4].
    split; rewrite ?Hout, ?Hclock; [done | done | lia |].
    intros ft Hft. specialize (H4 ft Hft). lia.
  - destruct Hworkers as [Hworkers | (w & Hworkers & Hnew)]; rewrite Hworkers in Hw'.
    + destruct (Hok t w' Hw') as [H1 H2 H3 H4].
      split; rewrite ?Hout, ?Hclock, ?tokens_sent_app_quiet by done; done.
    + destruct (decide (next_turn s = t)) as [<- | Hne].
      * rewrite lookup_insert_eq in Hw'. simplify_eq.
        split; rewrite ?Hout, ?Hclock, ?tokens_sent_app_quiet by done;
          rewrite ?Hnew; simpl; [by rewrite tokens_sent_fresh | done | lia | done].
      * rewrite lookup_insert_ne in Hw' by done.
        destruct (Hok t w' Hw') as [H1 H2 H3 H4].
        split; rewrite ?Hout, ?Hclock, ?tokens_sent_app_quiet by done; done.
  - rewrite Hworkers in Hw'. destruct (decide (u = t)) as [-> | Hne].
    + rewrite lookup_insert_eq in Hw'. simplify_eq.
      destruct (Hok t w0 Hw0) as [H1 H2 H3 H4].
      split; rewrite ?Hout, ?Hclock, ?Hsame; done.
    + rewrite lookup_insert_ne in Hw' by done.
      destruct (Hok t w' Hw') as [H1 H2 H3 H4].
      split; rewrite ?Hout, ?Hclock; done.
  - rewrite Hworkers in Hw'. destruct (decide (u = t)) as [-> | Hne].
    + rewrite lookup_insert_eq in Hw'. simplify_eq.
      destruct (Hok t w0 Hw0) as [H1 H2 H3 H4].
      split; rewrite ?Hout, ?Hclock, ?tokens_sent_app_token, ?decide_True by done.
      * lia.
      * rewrite Hfirst, Hcount. split; discriminate.
      * lia.
      * rewrite Hfirst, Hstart. intros ft [= <-].
        destruct (first_token_time (w_handler w0)) as [ft0|] eqn:Hft0; simpl.
        -- apply H4. done.
        -- lia.
    + rewrite lookup_insert_ne in Hw' by done.
      destruct (Hok t w' Hw') as [H1 H2 H3 H4].
      split; rewrite ?Hout, ?Hclock, ?tokens_sent_app_token, ?decide_False by done; done.
Qed.

(** X1. In every reachable state the handler of each turn has counted
    exactly the token messages sent for its turn, has recorded a
    first-token time exactly when it has counted a token, and that
    time lies between the handler's start time and the present, so the
    time to first token is never negative. *)
Theorem handler_bookkeeping config now es s t w :
  run config (init now) es = Some s →
  workers s !! t = Some w →
  token_count (w_handler w) = tokens_sent t (outbound s)
  ∧ (first_token_time (w_handler w) = None ↔ token_count (w_handler w) = 0%nat)
  ∧ (∀ ft, first_token_time (w_handler w) = Some ft →
           0 ≤ ft - start_time (w_handler w) ∧ ft ≤ clock s).
Proof.
  intros Hrun Hw.
  assert (wf s ∧ ∀ t w, workers s !! t = Some w → handler_ok s t w) as [_ Hok].
  { clear Hw. revert s Hrun.
    assert (∀ s0 s, wf s0 ∧ (∀ t w, workers s0 !! t = Some w → handler_ok s0 t w) →
              run config s0 es = Some s →
              wf s ∧ (∀ t w, workers s !! t = Some w → handler_ok s t w)) as Hind.
    { induction es as [|e es IH]; simpl; intros s0 s Hinv Hrun; [by simplify_eq|].
      destruct (step config s0 e) as [s1|] eqn:Hstep; [|done].
      apply (IH s1 s); [|done]. destruct Hinv as [Hwf Hok]. split.
      - eapply wf_step; eauto.
      - eapply handler_ok_step; eauto. }
    intros s Hrun. apply (Hind (init now) s); [|done].
    split; [apply wf_init|]. intros t0 w0 Hw0. simpl in Hw0.
    by rewrite lookup_empty in Hw0. }
  destruct (Hok t w Hw) as [H1 H2 H3 H4].
  split; [done|]. split; [done|]. intros ft Hft. specialize (H4 ft Hft). lia.
Qed.

Lemma handler_bookkeeping_witness :
  ∃ w, workers (state_after short_turn) !! 0%nat = Some w
       ∧ token_count (w_handler w)
         = tokens_sent 0 (outbound (state_after short_turn)).
Proof.
  destruct (workers (state_after short_turn) !! 0%nat) as [w|] eqn:Hw;
    [| vm_compute in Hw; discriminate].
  exists w. split; [reflexivity|].
  apply (handler_bookkeeping Config.defaults 0 short_turn
           (state_after short_turn) 0%nat w); [vm_compute; reflexivity | exact Hw].
Defined.

(** *** Cancellation silences the workers *)

Lemma tokens_sent_app_other t out u m :
  is_token m = false → tokens_sent t (out ++ [Sent u m]) = tokens_sent t out.
Proof. intros Hm. apply tokens_sent_app_quiet. by repeat constructor. Qed.

Lemma cancelled_step_bounds_tokens config s e s' t :
  cancel_event (sess s) = true →
  step config s e = Some s' → next_turn s' = next_turn s →
  (tokens_sent t (outbound s') + pending_send s' t
   ≤ tokens_sent t (outbound s) + pending_send s t)%nat
  ∧ (cancel_event (sess s') = true ∨ phase_of s' = Closed).
Proof.
  intros Hset Hstep Hturn.
  step_cases; simpl in *; try lia; try congruence;
    (split; [|tauto]);
    rewrite ?tokens_sent_app_other by done;
    rewrite ?tokens_sent_app_token;
    unfold pending_send, status_of; simpl;
    repeat match goal with
           | |- context [<[?u := _]> _ !! t] =>
               destruct (decide (u = t)) as [->|];
               [rewrite !lookup_insert_eq | rewrite !lookup_insert_ne by done]
           | H : workers ?s !! ?u = Some _ |- context [workers ?s !! ?u] =>
               rewrite H
           | H : w_status ?w = _ |- context [w_status ?w] => rewrite H
           end; simpl; try lia;
    repeat match goal with
           | H : w_status ?w = _ |- context [w_status ?w] => rewrite H
           end; simpl; lia.
Qed.

(** X2. Once the cancellation signal is set (by a cancel message, a
    new_conversation during a turn, the timeout or a disconnect), the
    only tokens sent until a request starts the next turn are those
    of callback invocations that had already passed their test of
    the signal: for each worker, of the turn in flight or an earlier
    one, at most one more token, and none if it was not inside such
    an invocation. The signal stays set until then. *)
Theorem cancellation_bounds_tokens config s es s' t :
  cancel_event (sess s) = true →
  run config s es = Some s' →
  next_turn s' = next_turn s →
  (tokens_sent t (outbound s') + pending_send s' t
   ≤ tokens_sent t (outbound s) + pending_send s t)%nat
  ∧ (pending_send s t ≤ 1)%nat
  ∧ (cancel_event (sess s') = true ∨ phase_of s' = Closed).
Proof.
  intros Hset Hrun Hturn.
  assert (pending_send s t ≤ 1)%nat as Hone
    by (unfold pending_send; repeat case_match; lia).
  split; [|split; [done|]]; clear Hone; revert s Hset Hrun Hturn.
  - induction es as [|e es IH]; simpl; intros s Hset Hrun Hturn.
    + by simplify_eq.
    + destruct (step config s e) as [s1|] eqn:Hstep; [|done].
      pose proof (step_next_turn _ _ _ _ Hstep).
      pose proof (run_next_turn _ _ _ _ Hrun).
      destruct (cancelled_step_bounds_tokens _ _ _ _ t Hset Hstep)
        as [Htok [Hset1 | Hclosed]]; [lia | |].
      * specialize (IH s1 Hset1 Hrun). lia.
      * destruct es as [|e1 es]; simpl in Hrun.
        -- by simplify_eq.
        -- unfold step in Hrun. by rewrite Hclosed in Hrun.
  - induction es as [|e es IH]; simpl; intros s Hset Hrun Hturn.
    + simplify_eq. by left.
    + destruct (step config s e) as [s1|] eqn:Hstep; [|done].
      pose proof (step_next_turn _ _ _ _ Hstep).
      pose proof (run_next_turn _ _ _ _ Hrun).
      destruct (cancelled_step_bounds_tokens _ _ _ _ t Hset Hstep)
        as [_ [Hset1 | Hclosed]]; [lia | |].
      * apply (IH s1 Hset1 Hrun). lia.
      * destruct es as [|e1 es]; simpl in Hrun.
        -- simplify_eq. by right.
        -- unfold step in Hrun. by rewrite Hclosed in Hrun.
Qed.

Lemma cancellation_bounds_tokens_witness :
  (tokens_sent 0 (outbound (state_after (cancel_after_test ++ late_send)))
   + pending_send (state_after (cancel_after_test ++ late_send)) 0
   ≤ tokens_sent 0 (outbound (state_after cancel_after_test))
     + pending_send (state_after cancel_after_test) 0)%nat.
Proof.
  apply (cancellation_bounds_tokens Config.defaults
           (state_after cancel_after_test) late_send
           (state_after (cancel_after_test ++ late_send)) 0%nat).
  - reflexivity.
  - vm_compute; reflexivity.
  - reflexivity.
Defined.

(** *** What a message says about the worker *)

Lemma app_singleton_inv {A} (l : list A) (x y : A) :
  l ++ [x] = l ++ [y] → x = y.
Proof. intros H. apply app_inv_head in H. by simplify_eq. Qed.

Lemma app_singleton_neq {A} (l : list A) (x : A) : l ≠ l ++ [x].
Proof.
  intros H. apply (f_equal length) in H. rewrite length_app in H. simpl in H. lia.
Qed.

(** X3. A message sent for a turn tells what its worker did: a token
    is sent only by a worker inside the agent, either in a callback
    invocation that had passed its test of the signal before this
    step, or in one that tests the signal in this very step and
    finds it clear; [done] is sent only for a worker that has
    returned, and carries what it returned; [cancelled] is sent only
    for a worker that ended with the cancellation error. *)
Theorem message_reflects_worker config s e s' t m :
  step config s e = Some s' →
  outbound s' = outbound s ++ [Sent (Some t) m] →
  match m with
  | Token _ =>
      status_of s t = Some Checked
      ∨ (status_of s t = Some Active ∧ cancel_event (sess s) = false)
  | Done c => status_of s t = Some (Finished (Returned c))
  | Cancelled =>
      ∃ text, status_of s t = Some (Finished (Raised (Exn CancellationError text)))
  | Error _ | ConversationReset => True
  end.
Proof.
  intros Hstep Hout.
  step_cases; simpl in *;
    try match goal with
        | H : ?l = ?l ++ [_] |- _ => by destruct (app_singleton_neq _ _ H)
        end;
    try match goal with
        | H : ?l ++ [_] = ?l ++ [_] |- _ =>
            apply app_singleton_inv in H; simplify_eq
        end; try done;
    unfold status_of in *; simpl in *;
    repeat match goal with
           | H : workers ?s !! ?u = Some _ |- context [workers ?s !! ?u] =>
               rewrite H; simpl
           | H : w_status ?w = _ |- context [w_status ?w] => rewrite H
           end; try done; try (by left); try (by right).
  all: try match goal with
           | H : context [workers ?s !! ?u] |- context [workers ?s !! ?u] =>
               destruct (workers s !! u) as [w0|]; simpl in *; simplify_eq
           end.
  all: try match goal with
           | H : exn_class_of ?e = CancellationError,
             H' : w_status _ = Finished (Raised ?e) |- _ =>
               destruct e as [k text]; simpl in *; subst k; exists text;
               by rewrite H'
           end.
Qed.

Lemma message_reflects_worker_witness :
  status_of (state_after short_turn) 0 = Some (Finished (Returned "ab")).
Proof.
  apply (message_reflects_worker Config.defaults (state_after short_turn) Poll
           (state_after (short_turn ++ [Poll])) 0%nat (Done "ab")).
  - vm_compute; reflexivity.
  - reflexivity.
Defined.

(** *** The timeout text *)

Lemma friendly_error_is_not_timeout_text (e : exn) :
  _friendly_error e ≠ timeout_text.
Proof.
  unfold _friendly_error.
  repeat match goal with
         | |- context [if ?b then _ else _] => destruct b
         end; try discriminate.
  intros Heq.
  assert (contains ": " timeout_text = true) as Hcolon
    by (rewrite <- Heq; apply contains_app).
  vm_compute in Hcolon. discriminate.
Qed.

(** X4. The text "Generation timed out ..." is sent only together with
    the loss of the handle: whatever step sends an [error] with that
    text leaves no handle bound and the connection between turns, so
    the next turn starts on a fresh agent. A failure of the agent,
    a malformed payload or an empty prompt never produces that text. *)
Theorem timeout_text_means_handle_dropped config s e s' u :
  step config s e = Some s' →
  outbound s' = outbound s ++ [Sent u (Error timeout_text)] →
  agent (sess s') = None
  ∧ current_config (sess s') = None
  ∧ current_mode_type (sess s') = None
  ∧ phase_of s' = Idle
  ∧ ∃ t, u = Some t ∧ active_turn s = Some t.
Proof.
  intros Hstep Hout.
  step_cases; simpl in *;
    try match goal with
        | H : ?l = ?l ++ [_] |- _ => by destruct (app_singleton_neq _ _ H)
        end;
    try match goal with
        | H : ?l ++ [_] = ?l ++ [_] |- _ => apply app_singleton_inv in H
        end;
    simplify_eq;
    try match goal with
        | H : _friendly_error ?e = timeout_text |- _ =>
            by destruct (friendly_error_is_not_timeout_text e)
        | H : _ +:+ _ = timeout_text |- _ => cbv in H; discriminate
        end.
  all: repeat split; try done; eexists; split; try done;
    unfold active_turn; by repeat match goal with H : phase_of _ = _ |- _ => rewrite H end.
Qed.

Lemma timeout_text_means_handle_dropped_witness :
  agent (sess (state_after (grace_elapsed ++ [GraceOver]))) = None.
Proof.
  apply (timeout_text_means_handle_dropped Config.defaults
           (state_after grace_elapsed) GraceOver
           (state_after (grace_elapsed ++ [GraceOver])) (Some 0%nat)).
  - vm_compute; reflexivity.
  - reflexivity.
Defined.

(** *** The handle and its binding *)

Lemma binding_ok_step config s e s' :
  binding_ok s → step config s e = Some s' → binding_ok s'.
Proof.
  intros [H1 H2 H3] Hstep.
  step_cases; split; simpl in *; try done; try (intros id [= <-]; done);
    try (split; discriminate); try (intros id Hid; by apply H3).
Qed.

(** X5. In every reachable state the handle, the configuration and the
    mode type it is bound to are set together and cleared together,
    and a bound handle is the agent built last. *)
Theorem handle_and_binding_go_together config now es s :
  run config (init now) es = Some s →
  (agent (sess s) = None ↔ current_config (sess s) = None)
  ∧ (agent (sess s) = None ↔ current_mode_type (sess s) = None)
  ∧ (∀ id, agent (sess s) = Some id → agents_created s = S id).
Proof.
  intros Hrun.
  assert (binding_ok s) as [H1 H2 H3]; [|done].
  assert (∀ s0, binding_ok s0 → run config s0 es = Some s → binding_ok s) as Hind.
  { clear Hrun. induction es as [|e es IH]; simpl; intros s0 Hok Hrun; [by simplify_eq|].
    destruct (step config s0 e) as [s1|] eqn:Hstep; [|done].
    eapply IH; [eapply binding_ok_step|]; eauto. }
  apply (Hind (init now)); [|done]. by split.
Qed.

Lemma handle_and_binding_go_together_witness :
  agents_created (state_after first_turn) = 1%nat.
Proof.
  apply (handle_and_binding_go_together Config.defaults 0 first_turn
           (state_after first_turn)); [vm_compute; reflexivity | reflexivity].
Defined.

(** *** A turn from start to end *)

Lemma run_app config s es1 es2 :
  run config s (es1 ++ es2) = run config s es1 ≫= λ s1, run config s1 es2.
Proof.
  revert s. induction es1 as [|e es1 IH]; intros s; simpl; [done|].
  destruct (step config s e); [apply IH | done].
Qed.

Lemma step_starts_turn config s e s1 :
  step config s e = Some s1 → next_turn s1 = S (next_turn s) →
  phase_of s = Idle
  ∧ phase_of s1 = Running (next_turn s) (clock s1) (clock s1)
  ∧ cancel_event (sess s1) = false
  ∧ outbound s1 = outbound s
  ∧ ∃ w, workers s1 !! next_turn s = Some w ∧ w_status w = Pending.
Proof.
  intros Hstep Hturn. step_cases; simpl in *; try lia;
    repeat split; try done; eexists; (split; [apply lookup_insert_eq | done]).
Qed.

Lemma scheduled_send m o : scheduled (_send_ws_message m o) = m.
Proof. unfold _send_ws_message. by destruct (future_result _ _). Qed.

Lemma callback_step config s t w kw o :
  phase_of s ≠ Closed → workers s !! t = Some w → w_status w = Active →
  cancel_event (sess s) = false →
  ∃ s', step config s (Callback t kw o) = Some s'
        ∧ phase_of s' = phase_of s ∧ sess s' = sess s ∧ clock s' = clock s
        ∧ next_turn s' = next_turn s ∧ agents_created s' = agents_created s
        ∧ status_of s' t = Some Active
        ∧ outbound s' = outbound s ++ streamed t [(kw, o)].
Proof.
  intros Hopen Hw Hact Hclear.
  unfold step, callback, callback_reading, __call__, streamed.
  rewrite Hw, Hact, Hclear. simpl.
  destruct (phase_of s) eqn:Hph; try done;
    destruct (truthy (get_default (kw_data kw) "")) eqn:Hdata; simpl;
    try destruct (warning _); eexists; (split; [reflexivity|]); simpl;
    rewrite ?app_nil_r; repeat split; try done.
  all: first [ by rewrite ?scheduled_send
             | unfold status_of; simpl; rewrite lookup_insert_eq; simpl;
               by rewrite ?Hact ].
Qed.

Lemma streaming_run config t calls :
  ∀ s, phase_of s ≠ Closed → status_of s t = Some Active →
       cancel_event (sess s) = false →
       ∃ s', run config s (callbacks t calls) = Some s'
             ∧ phase_of s' = phase_of s ∧ sess s' = sess s ∧ clock s' = clock s
             ∧ next_turn s' = next_turn s ∧ agents_created s' = agents_created s
             ∧ status_of s' t = Some Active
             ∧ outbound s' = outbound s ++ streamed t calls.
Proof.
  induction calls as [|[kw o] calls IH]; intros s Hopen Hact Hclear.
  - exists s. simpl. rewrite app_nil_r. by repeat split.
  - unfold status_of in Hact.
    destruct (workers s !! t) as [w|] eqn:Hw; [|discriminate].
    simpl in Hact. injection Hact as Hact.
    destruct (callback_step config s t w kw o Hopen Hw Hact Hclear)
      as (s1 & Hstep & Hph & Hsess & Hclock & Hturn & Hbuilt & Hact1 & Hout).
    destruct (IH s1) as (s2 & Hrun & Hph2 & Hsess2 & Hclock2 & Hturn2 & Hbuilt2 & Hact2 & Hout2);
      [congruence | done | congruence |].
    exists s2. simpl. rewrite Hstep. split; [done|].
    repeat split; try congruence.
    rewrite Hout2, Hout, <- app_assoc. f_equal.
    unfold streamed. simpl. by destruct (truthy _).
Qed.

(** X6. A turn that nothing interrupts: once a request has started turn
    [t], if its worker starts, the agent invokes the callback any
    number of times and then returns [res], and the listener wakes up,
    then the messages sent are exactly one token for each invocation
    that carried data, in the order of the invocations, followed by
    [done] with [res]; the connection is then between turns with the
    session as the request left it. *)
Theorem uninterrupted_turn_stream config s r s1 calls res :
  step config s (Recv (Object r)) = Some s1 →
  next_turn s1 = S (next_turn s) →
  ∃ s2,
    run config s1
      ([WorkerStart (next_turn s)] ++ callbacks (next_turn s) calls
         ++ [AgentReturns (next_turn s) res; Poll]) = Some s2
    ∧ outbound s2 =
        outbound s ++ streamed (next_turn s) calls
          ++ [Sent (Some (next_turn s)) (Done res)]
    ∧ phase_of s2 = Idle
    ∧ sess s2 = sess s1
    ∧ next_turn s2 = next_turn s1.
Proof.
  intros Hstep Hturn.
  destruct (step_starts_turn _ _ _ _ Hstep Hturn)
    as (_ & Hph & Hclear & Hout & w & Hw & Hpending).
  set (t := next_turn s) in *.
  set (sa := with_worker t (with_status Active w) s1).
  assert (step config s1 (WorkerStart t) = Some sa) as Hstart.
  { unfold step. by rewrite Hph, Hw, Hpending, Hclear. }
  destruct (streaming_run config t calls sa)
    as (sb & Hrun & Hphb & Hsessb & Hclockb & Hturnb & Hbuiltb & Hactb & Houtb).
  { simpl. by rewrite Hph. }
  { unfold status_of. simpl. by rewrite lookup_insert_eq. }
  { done. }
  unfold status_of in Hactb.
  destruct (workers sb !! t) as [wb|] eqn:Hwb; [|discriminate].
  simpl in Hactb. injection Hactb as Hactb.
  set (sc := with_worker t (with_status (Finished (Returned res)) wb) sb).
  assert (step config sb (AgentReturns t res) = Some sc) as Hret.
  { unfold step. simpl in Hphb. by rewrite Hphb, Hph, Hwb, Hactb. }
  eexists. split.
  - change ([WorkerStart t] ++ callbacks t calls ++ [AgentReturns t res; Poll])
      with (WorkerStart t :: (callbacks t calls ++ [AgentReturns t res; Poll])).
    simpl. rewrite Hstart, run_app, Hrun. simpl. rewrite Hret.
    unfold step, wait_over, loop_head, resolve, status_of. simpl.
    simpl in Hphb. rewrite Hphb, Hph. rewrite lookup_insert_eq. simpl. reflexivity.
  - simpl. rewrite Houtb. simpl. rewrite Hout, <- app_assoc.
    repeat split; try done; by rewrite ?Hturnb.
Qed.

Lemma uninterrupted_turn_stream_witness :
  ∃ s2,
    run Config.defaults (state_after [Recv (Object (ask "Hello"))])
      ([WorkerStart 0]
         ++ callbacks 0 [({| kw_data := Some "a"; kw_complete := None |}, SendCompletes 1);
                         ({| kw_data := None; kw_complete := Some true |}, SendCompletes 1);
                         ({| kw_data := Some "b"; kw_complete := None |}, SendNeverCompletes)]
         ++ [AgentReturns 0 "ab"; Poll]) = Some s2
    ∧ outbound s2 =
        [Sent (Some 0%nat) (Token "a"); Sent (Some 0%nat) (Token "b");
         Sent (Some 0%nat) (Done "ab")].
Proof.
  destruct (uninterrupted_turn_stream Config.defaults (init 0) (ask "Hello")
              (state_after [Recv (Object (ask "Hello"))])
              [({| kw_data := Some "a"; kw_complete := None |}, SendCompletes 1);
               ({| kw_data := None; kw_complete := Some true |}, SendCompletes 1);
               ({| kw_data := Some "b"; kw_complete := None |}, SendNeverCompletes)]
              "ab") as (s2 & Hrun & Hout & _).
  - vm_compute; reflexivity.
  - reflexivity.
  - exists s2. split; [exact Hrun | exact Hout].
Defined.

(** *** A cancel during a turn *)

Lemma cancel_is_recorded config s t gen_start wait_since c :
  phase_of s = Running t gen_start wait_since →
  (∀ o, status_of s t ≠ Some (Finished o)) →
  clock s - gen_start < GENERATION_TIMEOUT →
  Request.type c = Some "cancel" →
  step config s (Recv (Object c))
    = Some (with_phase (Running t gen_start (clock s))
              (with_sess (set_cancel true) s)).
Proof.
  intros Hph Hun Hlt Hc. apply unfinished_status in Hun.
  unfold step, listen, loop_head. rewrite Hph, bool_decide_eq_true_2 by done.
  change (status_of (with_sess (set_cancel true) s) t) with (status_of s t).
  simpl. destruct (status_of s t) as [[| | |o]|]; try done.
  all: by rewrite (proj2 (Z.leb_gt _ _)) by lia.
Qed.

(** X7. Cancellation is cooperative. A cancel received while the
    worker is inside the agent only sets the signal. If the agent then
    invokes its callback, whatever the invocation carries, nothing is
    sent for it, the worker ends, and the listener's next wake-up sends
    [cancelled] as the only message; if instead the agent returns
    without invoking the callback, the turn ends with [done] and the
    agent's result. Either way the handle and its binding are kept. *)
Theorem cancel_during_turn config s t gen_start wait_since c kw o res :
  phase_of s = Running t gen_start wait_since →
  status_of s t = Some Active →
  clock s - gen_start < GENERATION_TIMEOUT →
  Request.type c = Some "cancel" →
  (∃ s', run config s [Recv (Object c); Callback t kw o; Poll] = Some s'
         ∧ outbound s' = outbound s ++ [Sent (Some t) Cancelled]
         ∧ phase_of s' = Idle
         ∧ sess s' = set_cancel true (sess s))
  ∧ (∃ s', run config s [Recv (Object c); AgentReturns t res; Poll] = Some s'
           ∧ outbound s' = outbound s ++ [Sent (Some t) (Done res)]
           ∧ phase_of s' = Idle
           ∧ sess s' = set_cancel true (sess s)).
Proof.
  intros Hph Hact Hlt Hc.
  assert (step config s (Recv (Object c))
          = Some (with_phase (Running t gen_start (clock s))
                    (with_sess (set_cancel true) s))) as Hrecv.
  { apply (cancel_is_recorded _ _ _ _ wait_since); try done.
    intros o0. by rewrite Hact. }
  unfold status_of in Hact.
  destruct (workers s !! t) as [w|] eqn:Hw; [|discriminate].
  simpl in Hact. injection Hact as Hact.
  set (sa := with_phase (Running t gen_start (clock s))
               (with_sess (set_cancel true) s)) in *.
  assert (∀ out, step config (with_worker t (with_status (Finished out) w) sa) Poll
                 = Some (resolve t out
                           (with_worker t (with_status (Finished out) w) sa)))
    as Hpoll.
  { intros out. unfold step, wait_over, loop_head, status_of. simpl.
    by rewrite lookup_insert_eq. }
  split.
  - exists (resolve t (Raised (Exn CancellationError "Generation cancelled by client"))
              (with_worker t
                 (with_status
                    (Finished (Raised (Exn CancellationError
                                         "Generation cancelled by client"))) w) sa)).
    split; [|done]. simpl. rewrite Hrecv.
    assert (step config sa (Callback t kw o)
            = Some (with_worker t
                      (with_status
                         (Finished (Raised (Exn CancellationError
                                              "Generation cancelled by client"))) w) sa))
      as -> by (unfold step; simpl; by rewrite Hw, Hact).
    by rewrite Hpoll.
  - exists (resolve t (Returned res)
              (with_worker t (with_status (Finished (Returned res)) w) sa)).
    split; [|done]. simpl. rewrite Hrecv.
    assert (step config sa (AgentReturns t res)
            = Some (with_worker t (with_status (Finished (Returned res)) w) sa))
      as -> by (unfold step; simpl; by rewrite Hw, Hact).
    by rewrite Hpoll.
Qed.

Lemma cancel_during_turn_witness :
  (∃ s', run Config.defaults (state_after mid_turn)
           [Recv (Object (control "cancel")); token 0 "b"; Poll] = Some s'
         ∧ outbound s' = outbound (state_after mid_turn) ++ [Sent (Some 0%nat) Cancelled])
  ∧ (∃ s', run Config.defaults (state_after mid_turn)
             [Recv (Object (control "cancel")); AgentReturns 0 "a"; Poll] = Some s'
           ∧ outbound s' = outbound (state_after mid_turn) ++ [Sent (Some 0%nat) (Done "a")]).
Proof.
  destruct (cancel_during_turn Config.defaults (state_after mid_turn) 0 0 0
              (control "cancel") {| kw_data := Some "b"; kw_complete := None |}
              (SendCompletes 1) "a")
    as [(s1 & H1 & H2 & _) (s2 & H3 & H4 & _)].
  - reflexivity.
  - reflexivity.
  - vm_compute. reflexivity.
  - reflexivity.
  - split; [exists s1 | exists s2]; by split.
Defined.

(** *** A failure of the agent *)

Lemma bound_request_reuses config s r id :
  phase_of s = Idle → ¬ is_control r →
  negb (truthy (get_default (Request.prompt r) ""))
    && bool_decide (get_default (Request.mode r) "generate" = "generate") = false →
  agent (sess s) = Some id →
  current_config (sess s) = Some (Agent.from_request (Request.config r)) →
  current_mode_type (sess s) = Some (request_mode_type r) →
  ∃ s', step config s (Recv (Object r)) = Some s'
        ∧ next_turn s' = S (next_turn s)
        ∧ agents_created s' = agents_created s
        ∧ agent (sess s') = Some id
        ∧ outbound s' = outbound s
        ∧ ∃ w, workers s' !! next_turn s = Some w ∧ w_agent w = id.
Proof.
  intros Hidle Hctl Hvalid Hagent Hcfg Hmt. unfold is_control in Hctl.
  unfold step, dispatch, generation_request. rewrite Hidle.
  rewrite !bool_decide_eq_false_2 by tauto. rewrite Hvalid. simpl.
  rewrite Hagent, Hcfg, Hmt.
  rewrite !bool_decide_eq_false_2 by (intros Hne; by apply Hne). simpl.
  eexists. split; [reflexivity|]. simpl. repeat split; try done.
  eexists. split; [apply lookup_insert_eq | done].
Qed.

(** X8. A failure of the agent other than a cancellation or a timeout
    costs neither the connection nor the handle: the listener's next
    wake-up sends one [error] with the user-facing text of the failure,
    the connection is between turns with the session untouched, and a
    following request with the bound configuration and mode type runs
    on the same handle, no agent being built. *)
Theorem agent_failure_keeps_handle config s t gen_start wait_since e etype r id :
  phase_of s = Running t gen_start wait_since →
  status_of s t = Some (Finished (Raised e)) →
  exn_class_of e = Other etype →
  ¬ is_control r →
  negb (truthy (get_default (Request.prompt r) ""))
    && bool_decide (get_default (Request.mode r) "generate" = "generate") = false →
  agent (sess s) = Some id →
  current_config (sess s) = Some (Agent.from_request (Request.config r)) →
  current_mode_type (sess s) = Some (request_mode_type r) →
  ∃ s1 s2,
    step config s Poll = Some s1
    ∧ outbound s1 = outbound s ++ [Sent (Some t) (Error (_friendly_error e))]
    ∧ phase_of s1 = Idle
    ∧ sess s1 = sess s
    ∧ step config s1 (Recv (Object r)) = Some s2
    ∧ next_turn s2 = S (next_turn s)
    ∧ agents_created s2 = agents_created s
    ∧ agent (sess s2) = Some id.
Proof.
  intros Hph Hfin Hcls Hctl Hvalid Hagent Hcfg Hmt.
  set (s1 := with_phase Idle (send_text (Some t) (Error (_friendly_error e)) s)).
  assert (step config s Poll = Some s1) as Hpoll.
  { unfold step, wait_over, loop_head, resolve. by rewrite Hph, Hfin, Hcls. }
  destruct (bound_request_reuses config s1 r id)
    as (s2 & Hstep & Hturn & Hbuilt & Hkept & _); try done.
  by exists s1, s2.
Qed.

Lemma agent_failure_keeps_handle_witness :
  ∃ s1 s2,
    step Config.defaults
      (state_after [Recv (Object (ask "Hello")); WorkerStart 0;
                    AgentRaises 0 (Exn (Other "RuntimeError") "Model exploded")])
      Poll = Some s1
    ∧ outbound s1 = [Sent (Some 0%nat) (Error "RuntimeError: Model exploded")]
    ∧ step Config.defaults s1 (Recv (Object (ask "Try again"))) = Some s2
    ∧ agents_created s2 = 1%nat.
Proof.
  destruct (agent_failure_keeps_handle Config.defaults
              (state_after [Recv (Object (ask "Hello")); WorkerStart 0;
                            AgentRaises 0 (Exn (Other "RuntimeError") "Model exploded")])
              0 0 0 (Exn (Other "RuntimeError") "Model exploded") "RuntimeError"
              (ask "Try again") 0)
    as (s1 & s2 & H1 & H2 & _ & _ & H3 & _ & H4 & _).
  - reflexivity.
  - reflexivity.
  - reflexivity.
  - intros [[=] | [=]].
  - reflexivity.
  - reflexivity.
  - reflexivity.
  - reflexivity.
  - exists s1, s2. repeat split; try done.
Defined.

(** *** A new conversation *)

Lemma resets_sent_app_other out u m :
  is_reset m = false → resets_sent (out ++ [Sent u m]) = resets_sent out.
Proof.
  intros Hm. unfold resets_sent. rewrite filter_app, filter_cons. simpl.
  rewrite decide_False by congruence. by rewrite app_nil_r.
Qed.

Lemma new_conversation_step config s c s1 :
  Request.type c = Some "new_conversation" →
  step config s (Recv (Object c)) = Some s1 →
  (phase_of s = Idle →
   s1 = send_text None ConversationReset (with_sess reset_agent s))
  ∧ (phase_of s ≠ Idle →
     resets_sent (outbound s1) = resets_sent (outbound s)
     ∧ cancel_event (sess s1) = true).
Proof.
  intros Hc Hstep.
  step_cases; bool_hyps; simpl in *; try congruence;
    (split; [try done; congruence|]); intros Hbusy; try done;
    rewrite ?resets_sent_app_other by done; done.
Qed.

(** X9. A new_conversation message always leaves no handle bound, so
    that the request that starts the next turn builds a fresh agent
    whatever its configuration and mode type. Between turns it is
    answered with [conversation_reset] and changes nothing else;
    during a turn it is not answered at all and sets the cancellation
    signal. *)
Theorem new_conversation_forces_fresh_handle config s c s1 :
  Request.type c = Some "new_conversation" →
  step config s (Recv (Object c)) = Some s1 →
  agent (sess s1) = None
  ∧ (phase_of s = Idle →
     s1 = send_text None ConversationReset (with_sess reset_agent s))
  ∧ (phase_of s ≠ Idle →
     resets_sent (outbound s1) = resets_sent (outbound s)
     ∧ cancel_event (sess s1) = true)
  ∧ ∀ es s2 e s3,
      run config s1 es = Some s2 → next_turn s2 = next_turn s1 →
      step config s2 e = Some s3 → next_turn s3 = S (next_turn s2) →
      agents_created s3 = S (agents_created s2)
      ∧ agent (sess s3) = Some (agents_created s2).
Proof.
  intros Hc Hstep.
  assert (agent (sess s1) = None) as Hnone
    by (eapply new_conversation_unbinds; eauto).
  destruct (new_conversation_step _ _ _ _ Hc Hstep) as [Hidle Hbusy].
  split; [done|]. split; [exact Hidle|]. split; [exact Hbusy|].
  intros es s2 e s3 Hrun Hsame Hnext Hturn.
  apply (unbound_handle_is_built _ _ _ _ Hnext Hturn).
  eapply run_keeps_unbound; eauto.
Qed.

Lemma new_conversation_forces_fresh_handle_witness :
  agent (sess (state_after (first_turn ++ [Recv (Object (control "new_conversation"))])))
  = None.
Proof.
  apply (new_conversation_forces_fresh_handle Config.defaults
           (state_after first_turn) (control "new_conversation")
           (state_after (first_turn ++ [Recv (Object (control "new_conversation"))]))).
  - reflexivity.
  - vm_compute; reflexivity.
Defined.

(** *** Frames the listener passes over *)

(** X10. While a turn is running, a read that fails, a payload on
    which [json.loads] raises [JSONDecodeError] and an object that is
    not a control message all do what a wake-up of the listener
    without any frame does, and no more: when such a wake-up is due
    they lead to the same state, and while the worker is unfinished
    and the ceiling not reached they send nothing, start nothing and
    leave the session as it is. A payload on which [json.loads]
    raises another exception is not passed over: it ends the turn
    with an [error] message that carries the friendly text of the
    exception. *)
Theorem passed_over_frame_is_a_wake_up config s t gen_start wait_since f :
  phase_of s = Running t gen_start wait_since →
  discardable f →
  step config s (Recv f) = Some (loop_head t gen_start s)
  ∧ (wait_over t gen_start wait_since s = true →
     step config s (Recv f) = step config s Poll)
  ∧ ((∀ o, status_of s t ≠ Some (Finished o)) →
     clock s - gen_start < GENERATION_TIMEOUT →
     step config s (Recv f)
       = Some (with_phase (Running t gen_start (clock s)) s))
  ∧ (∀ etype text,
       step config s (Recv (LoadsRaises etype text))
       = Some (with_phase Idle
                 (send_text (Some t)
                    (Error (_friendly_error (Exn (Other etype) text))) s))).
Proof.
  intros Hrun Hf.
  assert (step config s (Recv f) = Some (loop_head t gen_start s)) as Hrecv.
  { unfold step, listen. rewrite Hrun.
    destruct f as [| | err | etype text | pytype | r]; simpl in Hf; try done.
    unfold is_control in Hf. by rewrite !bool_decide_eq_false_2 by tauto. }
  split; [done|]. split; [|split].
  - intros Hdue. rewrite Hrecv. unfold step. by rewrite Hrun, Hdue.
  - intros Hun Hlt. rewrite Hrecv. f_equal.
    apply unfinished_status in Hun. unfold loop_head.
    destruct (status_of s t) as [[| | |o]|]; try done.
    all: by rewrite (proj2 (Z.leb_gt _ _)) by lia.
  - intros etype text. unfold step, listen, resolve. by rewrite Hrun.
Qed.

Lemma passed_over_frame_is_a_wake_up_witness :
  step Config.defaults (state_after mid_turn) (Recv (Object (ask "Another")))
  = Some (with_phase (Running 0 0 0) (state_after mid_turn)).
Proof.
  destruct (passed_over_frame_is_a_wake_up Config.defaults (state_after mid_turn)
              0 0 0 (Object (ask "Another"))) as (_ & _ & H & _).
  - reflexivity.
  - intros [[=] | [=]].
  - apply H; [intros o; vm_compute; discriminate | vm_compute; reflexivity].
Defined.

(** *** The outbox is only ever appended to *)

Lemma sent_since_app s s' ext :
  outbound s' = outbound s ++ ext → sent_since s s' = ext.
Proof. intros H. unfold sent_since. by rewrite H, drop_app_length. Qed.

Lemma with_outbound_eq out0 s s' ext :
  outbound s' = outbound s ++ ext →
  with_outbound (out0 ++ sent_since s s') s' = with_outbound (out0 ++ ext) s'.
Proof. intros H. by rewrite (sent_since_app _ _ _ H). Qed.

Ltac outbox :=
  unfold with_outbound, sent_since; simpl;
  rewrite ?drop_app_length, ?drop_all, ?app_nil_r, <-?(assoc_L (++)); reflexivity.

Lemma resolve_outbox t o s out0 :
  resolve t o (with_outbound out0 s)
  = with_outbound (out0 ++ sent_since s (resolve t o s)) (resolve t o s).
Proof. destruct o as [c|[[| | |etype] text]]; outbox. Qed.

Lemma loop_head_outbox t g s out0 :
  loop_head t g (with_outbound out0 s)
  = with_outbound (out0 ++ sent_since s (loop_head t g s)) (loop_head t g s).
Proof.
  unfold loop_head.
  change (status_of (with_outbound out0 s) t) with (status_of s t).
  change (clock (with_outbound out0 s)) with (clock s).
  destruct (status_of s t) as [[| | |o]|]; try apply resolve_outbox.
  all: destruct (_ <=? 0); outbox.
Qed.

Lemma listen_outbox t g f s out0 :
  listen t g f (with_outbound out0 s)
  = with_outbound (out0 ++ sent_since s (listen t g f s)) (listen t g f s).
Proof.
  destruct f as [| | err | etype text | pytype | r]; unfold listen.
  - outbox.
  - apply loop_head_outbox.
  - apply loop_head_outbox.
  - apply resolve_outbox.
  - apply resolve_outbox.
  - repeat case_match.
    + apply (loop_head_outbox t g (with_sess (set_cancel true) s)).
    + apply (loop_head_outbox t g
               (with_sess reset_agent (with_sess (set_cancel true) s))).
    + apply loop_head_outbox.
Qed.

Lemma generation_request_outbox config r s out0 :
  generation_request config r (with_outbound out0 s)
  = with_outbound (out0 ++ sent_since s (generation_request config r s))
      (generation_request config r s).
Proof.
  unfold generation_request, rebuild, spawn. simpl.
  repeat case_match; outbox.
Qed.

Lemma dispatch_outbox config f s out0 :
  dispatch config f (with_outbound out0 s)
  = with_outbound (out0 ++ sent_since s (dispatch config f s)) (dispatch config f s).
Proof.
  destruct f as [| | err | etype text | pytype | r]; unfold dispatch; try outbox.
  repeat case_match; try outbox. apply generation_request_outbox.
Qed.

Lemma callback_outbox flag t w kw o s out0 :
  callback_reading flag t w kw o (with_outbound out0 s)
  = with_outbound (out0 ++ sent_since s (callback_reading flag t w kw o s))
      (callback_reading flag t w kw o s).
Proof.
  unfold callback_reading. simpl.
  destruct (__call__ _ _ _ _ _) as [[h [rep|]]|e]; try outbox.
  destruct (warning rep); outbox.
Qed.

Lemma step_outbox config s e s' out0 :
  step config s e = Some s' →
  step config (with_outbound out0 s) e
  = Some (with_outbound (out0 ++ sent_since s s') s').
Proof.
  unfold step.
  change (phase_of (with_outbound out0 s)) with (phase_of s).
  change (workers (with_outbound out0 s)) with (workers s).
  change (clock (with_outbound out0 s)) with (clock s).
  change (sess (with_outbound out0 s)) with (sess s).
  change (status_of (with_outbound out0 s)) with (status_of s).
  change (wait_over ?t ?g ?w (with_outbound out0 s)) with (wait_over t g w s).
  change (builds config ?r (with_outbound out0 s)) with (builds config r s).
  unfold callback, callback_check.
  change (sess (with_outbound out0 s)) with (sess s).
  intros Hstep.
  repeat case_match; simplify_eq; f_equal;
    first [ apply dispatch_outbox | apply listen_outbox | apply loop_head_outbox
          | apply resolve_outbox | apply callback_outbox | outbox ].
Qed.

Lemma step_appends config s e s' :
  step config s e = Some s' → outbound s' = outbound s ++ sent_since s s'.
Proof.
  intros Hstep. destruct (step_sends _ _ _ _ Hstep) as (ext & Hout & _).
  by rewrite (sent_since_app _ _ _ Hout).
Qed.

Lemma run_outbox config s es s' out0 :
  run config s es = Some s' →
  outbound s' = outbound s ++ sent_since s s'
  ∧ run config (with_outbound out0 s) es
    = Some (with_outbound (out0 ++ sent_since s s') s').
Proof.
  revert s out0. induction es as [|e es IH]; simpl; intros s out0 Hrun.
  - simplify_eq. unfold sent_since. rewrite drop_all, !app_nil_r.
    split; [done|]. by destruct s'.
  - destruct (step config s e) as [s1|] eqn:Hstep; [|done].
    rewrite (step_outbox _ _ _ _ out0 Hstep).
    destruct (IH s1 (out0 ++ sent_since s s1) Hrun) as [Hout Hrun'].
    pose proof (step_appends _ _ _ _ Hstep) as Hout1.
    assert (sent_since s s' = sent_since s s1 ++ sent_since s1 s') as Hsplit.
    { apply sent_since_app. by rewrite Hout, Hout1, <-(assoc_L (++)). }
    split.
    + by rewrite Hout, Hout1, Hsplit, <-(assoc_L (++)).
    + by rewrite Hrun', Hsplit, <-(assoc_L (++)).
Qed.

(** X11. A payload on which [json.loads] raises [JSONDecodeError],
    read between turns, is answered with one [Invalid JSON] error and
    changes nothing else, now or later: whatever the connection would
    have done without it, it does after it, reaching the same state
    and sending the same messages in the same order behind the error.
    A payload on which [json.loads] raises another exception gets no
    reply: it ends the connection, and nothing is sent after it. *)
Theorem malformed_payload_is_only_answered config s err es s' :
  phase_of s = Idle →
  run config s es = Some s' →
  run config s (Recv (Malformed err) :: es)
  = Some (with_outbound
            (outbound s ++ [Sent None (Error ("Invalid JSON: " +:+ err))]
               ++ sent_since s s') s')
  ∧ ∀ etype text,
      step config s (Recv (LoadsRaises etype text)) = Some (with_phase Closed s)
      ∧ ∀ es' s'',
          run config (with_phase Closed s) es' = Some s'' →
          s'' = with_phase Closed s.
Proof.
  intros Hidle Hrun. split.
  - simpl. unfold step. rewrite Hidle. simpl.
    destruct (run_outbox _ _ _ _
                (outbound s ++ [Sent None (Error ("Invalid JSON: " +:+ err))]) Hrun)
      as [_ Hrun'].
    replace (send_text None (Error ("Invalid JSON: " +:+ err)) s)
      with (with_outbound
              (outbound s ++ [Sent None (Error ("Invalid JSON: " +:+ err))]) s)
      by done.
    by rewrite Hrun', <-(assoc_L (++)).
  - intros etype text. split.
    + unfold step. by rewrite Hidle.
    + intros es' s'' Hrun'.
      by apply (ServerProps.closed_is_final config (with_phase Closed s) es').
Qed.

Lemma malformed_payload_is_only_answered_witness :
  outbound (state_after (Recv (Malformed "Expecting value") :: first_turn))
  = Sent None (Error "Invalid JSON: Expecting value")
    :: outbound (state_after first_turn).
Proof.
  unfold state_after.
  rewrite (proj1 (malformed_payload_is_only_answered Config.defaults (init 0)
                    "Expecting value" first_turn (state_after first_turn)
                    eq_refl eq_refl)).
  reflexivity.
Defined.

(** *** The clock of a turn *)

Lemma timing_ok_step config s e s' :
  timing_ok s → step config s e = Some s' → timing_ok s'.
Proof.
  unfold timing_ok. intros Hok Hstep.
  step_cases; bool_hyps; simpl in *;
    repeat match goal with
           | H : _ ∧ _ |- _ => destruct H
           | H : (_ <=? _) = true |- _ => apply Z.leb_le in H
           | H : (_ <=? _) = false |- _ => apply Z.leb_gt in H
           end;
    try congruence;
    repeat match goal with
           | H : phase_of ?x = _, H' : phase_of ?x = _ |- _ =>
               rewrite H in H'; simplify_eq
           end;
    unfold GENERATION_TIMEOUT in *;
    repeat split; try done; try lia;
    try (apply lookup_insert_is_Some'; by (left + right)).
Qed.

(** X12. The clock of a turn, in every reachable state. While the
    listener waits, its wait began no earlier than the generation
    and strictly less than 120 seconds after it, so the timeout it
    gives [asyncio.wait], the smaller of the time that remains and
    one second, is positive. During the wait that follows the
    ceiling, that wait began at least 120 seconds after the
    generation, and the cancellation signal is set. In both the
    worker of the turn exists. *)
Theorem turn_clock config now es s t gen_start wait_since :
  run config (init now) es = Some s →
  (phase_of s = Running t gen_start wait_since →
   gen_start ≤ wait_since ≤ clock s
   ∧ 0 < Z.min (GENERATION_TIMEOUT - (wait_since - gen_start)) LISTEN_SLICE
   ∧ is_Some (workers s !! t))
  ∧ (phase_of s = Draining t gen_start wait_since →
     gen_start + GENERATION_TIMEOUT ≤ wait_since ≤ clock s
     ∧ cancel_event (sess s) = true
     ∧ is_Some (workers s !! t)).
Proof.
  intros Hrun.
  assert (timing_ok s) as Hok.
  { revert Hrun. generalize (init now), (I : timing_ok (init now)).
    induction es as [|e es IH]; simpl; intros s0 Hok Hrun; [by simplify_eq|].
    destruct (step config s0 e) as [s1|] eqn:Hstep; [|done].
    eapply IH; [|exact Hrun]. eapply timing_ok_step; eauto. }
  unfold timing_ok in Hok.
  split; intros Hph; rewrite Hph in Hok;
    unfold GENERATION_TIMEOUT, LISTEN_SLICE in *; repeat split; try tauto; lia.
Qed.

Lemma turn_clock_witness :
  cancel_event (sess (state_after slow_turn)) = true.
Proof.
  apply (turn_clock Config.defaults 0 slow_turn (state_after slow_turn) 0 0 120000).
  - vm_compute; reflexivity.
  - reflexivity.
Defined.

End StreamProps.

(** ** Messages and the single-shot surfaces, further *)

Module SurfaceProps.
Import Py Message Server Vocabulary Observations MessageProps ServerProps PyProps.

Lemma build_message_no_context (prompt mode : string) :
  build_message prompt "" mode = prompt.
Proof. unfold build_message. simpl. by rewrite !andb_false_r. Qed.

(** X13. What [build_message] keeps of its inputs. A non-empty
    context is part of the message in every mode. The prompt is part
    of the message, except in fix mode with a non-empty context,
    where the prompt has no influence at all. With an empty context
    the message is the prompt, in any mode, known or not. *)
Theorem build_message_keeps_its_inputs (prompt context mode : string) :
  (context ≠ "" → contains context (build_message prompt context mode) = true)
  ∧ (mode ≠ "fix" ∨ context = "" →
     contains prompt (build_message prompt context mode) = true)
  ∧ (mode = "fix" → context ≠ "" →
     ∀ other, build_message other context mode = build_message prompt context mode)
  ∧ build_message prompt "" mode = prompt.
Proof.
  unfold build_message. repeat split.
  - intros Hc. apply truthy_nonempty in Hc. rewrite Hc, !andb_true_r.
    repeat case_bool_decide; find_substring.
  - intros Hm. destruct (truthy context) eqn:Hc.
    + rewrite !andb_true_r. destruct Hm as [Hm | ->]; [|done].
      repeat case_bool_decide; try done; find_substring.
    + rewrite !andb_false_r. apply contains_self.
  - intros -> Hc other. apply truthy_nonempty in Hc. by rewrite Hc.
  - apply build_message_no_context.
Qed.

Lemma build_message_keeps_its_inputs_witness :
  contains "Ths has errros" (build_message "ignored" "Ths has errros" "fix") = true
  ∧ build_message "other" "Ths has errros" "fix"
    = build_message "ignored" "Ths has errros" "fix".
Proof.
  destruct (build_message_keeps_its_inputs "ignored" "Ths has errros" "fix")
    as (H1 & _ & H3 & _).
  split; [apply H1; discriminate | apply H3; [reflexivity | discriminate]].
Defined.

(** X14. Only the generate mode is validated. Between turns, a
    request with an empty prompt, an empty context and any mode other
    than [generate] is not answered with an error: provided the
    agent can be built, a turn starts and its worker is handed the
    empty string as the text of its message. *)
Theorem empty_message_reaches_the_agent config s r :
  phase_of s = Idle →
  ¬ is_control r →
  get_default (Request.prompt r) "" = "" →
  get_default (Request.context r) "" = "" →
  get_default (Request.mode r) "generate" ≠ "generate" →
  Agent.create_agent config (Agent.from_request (Request.config r))
    (request_mode_type r) = Returned tt →
  ∃ s1 w,
    step config s (Recv (Object r)) = Some s1
    ∧ outbound s1 = outbound s
    ∧ next_turn s1 = S (next_turn s)
    ∧ workers s1 !! next_turn s = Some w
    ∧ w_status w = Pending
    ∧ text_of (w_message w) = "".
Proof.
  intros Hidle Hctl Hp Hc Hm Hbuild. unfold is_control in Hctl.
  unfold step, dispatch, generation_request, rebuild. rewrite Hidle.
  rewrite !bool_decide_eq_false_2 by tauto. cbv zeta.
  rewrite Hp, Hc, andb_false_r, Hbuild.
  rewrite build_message_no_context.
  assert (∀ shot, text_of (build_multimodal_message "" shot) = "") as Htext
    by (by intros [[| |bytes]|]).
  simpl. destruct (agent (sess s)) as [id|]; [case_match|];
    (eexists _, _; split; [reflexivity|]; simpl;
     rewrite lookup_insert_eq; repeat split; try done; apply Htext).
Qed.

Lemma empty_message_reaches_the_agent_witness :
  ∃ s1 w,
    step Config.defaults (init 0) (Recv (Object
      {| Request.type := None; Request.prompt := None;
         Request.context := None; Request.mode := Some "fix";
         Request.mode_type := None; Request.screenshot_b64 := None;
         Request.config := None |})) = Some s1
    ∧ outbound s1 = outbound (init 0)
    ∧ next_turn s1 = S (next_turn (init 0))
    ∧ workers s1 !! next_turn (init 0) = Some w
    ∧ w_status w = Pending
    ∧ text_of (w_message w) = "".
Proof.
  apply (empty_message_reaches_the_agent Config.defaults (init 0)); try reflexivity.
  - intros [[=] | [=]].
  - discriminate.
Defined.

(** *** The single-shot surfaces *)



(** X16. The SDK entrypoint is the [/invocations] endpoint without
    the screenshot and without the friendly wording of errors: on
    the same request object, with an agent that looks at the text of
    its message only, [invoke] gives [{result: text}] exactly when
    [/invocations] gives 200 with [done] and that text, gives
    [{error: "Empty prompt"}] when [/invocations] gives 400, and
    gives the bare message of the exception when [/invocations]
    gives 500 with its friendly text. The two copies of the
    classifier and of the message builder agree. *)
Theorem invoke_matches_invocations config sdk_agent r :
  let agent := λ mc mt um, sdk_agent mc mt (text_of um) in
  let reply := AgentCoreServer.invocations config agent (AgentCoreServer.BodyObject r) in
  (∀ mode context prompt,
     AgentCoreApp._classify_mode_type mode context
     = classify_mode_type mode context prompt
     ∧ AgentCoreApp._build_message prompt context mode
       = build_message prompt context mode)
  ∧ (∀ text,
       AgentCoreApp.invoke config sdk_agent r = [("result", text)] ↔
       reply = Returned {| AgentCoreServer.status_code := 200;
                           AgentCoreServer.content :=
                             [("type", "done"); ("content", text)] |})
  ∧ (∀ resp, reply = Returned resp → AgentCoreServer.status_code resp = 400 →
       AgentCoreApp.invoke config sdk_agent r = [("error", "Empty prompt")])
  ∧ (∀ resp, reply = Returned resp → AgentCoreServer.status_code resp = 500 →
       ∃ e, AgentCoreApp.invoke config sdk_agent r = [("error", exn_msg e)]
            ∧ AgentCoreServer.content resp
              = [("type", "error"); ("content", _friendly_error e)]).
Proof.
  intros agent reply. split; [done|].
  subst reply agent. unfold AgentCoreApp.invoke, AgentCoreServer.invocations.
  change (match Request.mode_type r with
          | Some m0 =>
              if truthy m0 then m0
              else AgentCoreApp._classify_mode_type
                     (get_default (Request.mode r) "generate")
                     (get_default (Request.context r) "")
          | None =>
              AgentCoreApp._classify_mode_type
                (get_default (Request.mode r) "generate")
                (get_default (Request.context r) "")
          end) with (request_mode_type r).
  change (AgentCoreApp._build_message ?p ?c ?m) with (build_message p c m).
  cbv zeta.
  assert (∀ text shot, text_of (build_multimodal_message text shot) = text) as Htext
    by (by intros text [[| |bytes]|]).
  rewrite Htext.
  destruct (negb _ && _); [|destruct (Agent.create_agent _ _ _) as [[] | e];
                               [destruct (sdk_agent _ _ _) as [full | e]|]];
    repeat split; intros; simplify_eq; simpl in *; try done;
    eexists; split; reflexivity.
Qed.

End SurfaceProps.

(** ** The configuration, the MCP manager and the making of an agent *)

Module BuildProps.
Import Py Message Server Vocabulary Observations MessageProps.

(** ** The configuration *)

Ltac other_keys :=
  repeat match goal with
         | |- context [<[?i := _]> _ !! ?j] =>
             rewrite (lookup_insert_ne _ i j) by done
         end.

(** X18. How the environment sets the configuration. The class body
    reads nine variables and a variable other than these changes
    nothing. With an empty environment the fields are the defaults,
    [max_tokens] and [temperature] being what [int] and [float] make
    of ["2048"] and ["0.7"]. [AWS_PROFILE] and [AWS_DEFAULT_REGION]
    are fallbacks only: once [GHOSTTYPE_AWS_PROFILE] (or
    [GHOSTTYPE_AWS_REGION]) is set, to the empty string even, they
    are not looked at; and what [GHOSTTYPE_AWS_PROFILE] is set to is
    the profile, the empty string included. The class body raises
    exactly when [int] raises on [GHOSTTYPE_MAX_TOKENS] or, [int]
    having returned, [float] raises on [GHOSTTYPE_TEMPERATURE]; when
    it returns, the host and the port are the fixed ones, the log
    level is [GHOSTTYPE_LOG_LEVEL] or [DEBUG], and the fields the
    agent reads are those of [from_environ]. *)
Theorem environment_precedence {pyfloat : Type}
    (int : string → result Z) (float : string → result pyfloat)
    (env : gmap string string) (k v : string) :
  ConfigEnv.from_environ ∅ = Config.defaults
  ∧ (∀ n t, int "2048" = Returned n → float "0.7" = Returned t →
       ConfigEnv.class_body int float ∅
       = Returned
           {| ConfigEnv.host := "127.0.0.1"; ConfigEnv.port := 8420;
              ConfigEnv.model_provider := "bedrock";
              ConfigEnv.model_id := "global.anthropic.claude-opus-4-6-v1";
              ConfigEnv.aws_profile := "";
              ConfigEnv.aws_region := "us-west-2";
              ConfigEnv.max_tokens := n; ConfigEnv.temperature := t;
              ConfigEnv.log_level := "DEBUG" |})
  ∧ (k ∉ ConfigEnv.variables_read →
     ConfigEnv.class_body int float (<[k := v]> env)
     = ConfigEnv.class_body int float env)
  ∧ (is_Some (env !! "GHOSTTYPE_AWS_PROFILE") →
     ConfigEnv.class_body int float (<["AWS_PROFILE" := v]> env)
     = ConfigEnv.class_body int float env)
  ∧ (is_Some (env !! "GHOSTTYPE_AWS_REGION") →
     ConfigEnv.class_body int float (<["AWS_DEFAULT_REGION" := v]> env)
     = ConfigEnv.class_body int float env)
  ∧ Config.aws_profile (ConfigEnv.from_environ (<["GHOSTTYPE_AWS_PROFILE" := v]> env)) = v
  ∧ (∀ c, ConfigEnv.class_body int float env = Returned c →
       ConfigEnv.read_by_agent c = ConfigEnv.from_environ env
       ∧ ConfigEnv.host c = "127.0.0.1"
       ∧ ConfigEnv.port c = 8420
       ∧ int (ConfigEnv.environ_get env "GHOSTTYPE_MAX_TOKENS" "2048")
         = Returned (ConfigEnv.max_tokens c)
       ∧ float (ConfigEnv.environ_get env "GHOSTTYPE_TEMPERATURE" "0.7")
         = Returned (ConfigEnv.temperature c)
       ∧ ConfigEnv.log_level c
         = ConfigEnv.environ_get env "GHOSTTYPE_LOG_LEVEL" "DEBUG")
  ∧ (∀ e, ConfigEnv.class_body int float env = Raised e ↔
       int (ConfigEnv.environ_get env "GHOSTTYPE_MAX_TOKENS" "2048") = Raised e
       ∨ ((∃ n, int (ConfigEnv.environ_get env "GHOSTTYPE_MAX_TOKENS" "2048")
                = Returned n)
          ∧ float (ConfigEnv.environ_get env "GHOSTTYPE_TEMPERATURE" "0.7")
            = Raised e)).
Proof.
  split; [reflexivity|].
  split.
  { intros n t Hint Hfloat. unfold ConfigEnv.class_body, ConfigEnv.environ_get.
    rewrite !lookup_empty. simpl. by rewrite Hint, Hfloat. }
  unfold ConfigEnv.class_body, ConfigEnv.from_environ, ConfigEnv.environ_get.
  split; [|split; [|split; [|split; [|split]]]].
  - unfold ConfigEnv.variables_read. rewrite !not_elem_of_cons.
    intros (? & ? & ? & ? & ? & ? & ? & ? & ? & _). by rewrite !lookup_insert_ne.
  - intros [p Hp]. other_keys. by rewrite Hp.
  - intros [r Hr]. other_keys. by rewrite Hr.
  - simpl. by rewrite lookup_insert_eq.
  - intros c Hc.
    destruct (int _) as [n|e]; [|done].
    destruct (float _) as [t|e]; [|done].
    by simplify_eq.
  - intros e.
    destruct (int _) as [n|e1]; [destruct (float _) as [t|e2]|]; split.
    + done.
    + by intros [[=] | [_ [=]]].
    + intros [= <-]. right. split; [by exists n | done].
    + intros [[=] | [_ [= <-]]]. done.
    + intros [= <-]. by left.
    + intros [[= <-] | [[n [=]] _]]. done.
Qed.

Lemma environment_precedence_witness :
  ConfigEnv.class_body
    (λ s, if decide (s = "2048") then Returned 2048
          else Raised (Exn (Other "ValueError") "invalid literal for int()"))
    (λ s, Returned s)
    (<["AWS_PROFILE" := "work"]> {["GHOSTTYPE_AWS_PROFILE" := ""]})
  = ConfigEnv.class_body
      (λ s, if decide (s = "2048") then Returned 2048
            else Raised (Exn (Other "ValueError") "invalid literal for int()"))
      (λ s, Returned s)
      {["GHOSTTYPE_AWS_PROFILE" := ""]}.
Proof.
  apply (environment_precedence
           (λ s, if decide (s = "2048") then Returned 2048
                 else Raised (Exn (Other "ValueError") "invalid literal for int()"))
           (λ s, Returned s)
           {["GHOSTTYPE_AWS_PROFILE" := ""]} "AWS_PROFILE" "work").
  by eexists.
Defined.

(** ** The MCP manager *)

Section MCP.
Import MCPManager.

Lemma announce_spec (l : list (string * server_cfg)) :
  ((announce l).2 = Returned tt ↔ ∀ item, item ∈ l → is_Some (command item.2))
  ∧ ((announce l).2 = Returned tt
     ∨ (announce l).2 = Raised (Exn (Other "KeyError") "'command'"))
  ∧ ((announce l).2 = Returned tt →
     (announce l).1 = omap (λ item, (λ c, (item.1, c)) <$> command item.2) l
     ∧ (announce l).1.*1 = l.*1).
Proof.
  induction l as [|[name cfg] l (IH1 & IH2 & IH3)]; simpl.
  - repeat split; try done; [by intros _ item ?%elem_of_nil | by left].
  - destruct (command cfg) as [c|] eqn:Hc; simpl; (split; [|split]).
    + rewrite IH1. split.
      * intros Hl item [->|Hin]%elem_of_cons;
          [simpl; rewrite Hc; by eexists | by apply Hl].
      * intros Hl item Hin. apply Hl. by right.
    + exact IH2.
    + intros Hret. destruct (IH3 Hret) as [Hl1 Hl2].
      split; f_equal; [exact Hl1 | exact Hl2].
    + split; [done|]. intros Hl. destruct (Hl (name, cfg)) as [c Hc']; [by left|].
      simpl in Hc'. congruence.
    + by right.
    + done.
Qed.

Lemma enabled_server_spec c item :
  item ∈ _enabled_servers c ↔ item ∈ servers_of c ∧ is_enabled item.2 = true.
Proof. unfold _enabled_servers. rewrite list_elem_of_filter. tauto. Qed.

Lemma client_spec init c cl :
  cl ∈ get_mcp_tools init c ↔
  (server_name cl, sc cl) ∈ _enabled_servers c
  ∧ init (server_name cl) (sc cl) = Returned tt.
Proof.
  unfold get_mcp_tools. rewrite list_elem_of_omap. split.
  - intros ([name cfg] & Hin & Hcl). simpl in Hcl.
    destruct (init name cfg) as [[]|e] eqn:Hinit; simplify_eq. by simpl.
  - intros [Hin Hinit]. exists (server_name cl, sc cl). split; [done|].
    simpl. rewrite Hinit. by destruct cl.
Qed.

Lemma clients_come_from_enabled_members init c :
  (∀ cl, cl ∈ get_mcp_tools init c →
         (server_name cl, sc cl) ∈ servers_of c ∧ enabled (sc cl) ≠ Some false)
  ∧ (λ cl, (server_name cl, sc cl)) <$> get_mcp_tools init c `sublist_of` servers_of c.
Proof.
  split.
  - intros cl (Hin & Hinit)%client_spec. apply enabled_server_spec in Hin as [Hin Hen].
    split; [done|]. simpl in Hen. unfold is_enabled in Hen.
    intros Hoff. by rewrite Hoff in Hen.
  - transitivity (_enabled_servers c); [|apply sublist_filter].
    unfold get_mcp_tools. induction (_enabled_servers c) as [|[name cfg] l IH]; [done|].
    simpl. destruct (init name cfg) as [[]|e]; simpl;
      [by apply sublist_skip | by apply sublist_cons].
Qed.

(** X19. [get_mcp_tools] gives clients for enabled servers only, at
    most one per entry and in the order of the file: each client
    closes over an entry of the configuration that is not disabled
    and whose client could be constructed; an entry whose
    construction fails is left out without failing the call; when
    no construction fails the clients are the enabled entries. A
    missing file, a file whose open or read raises [OSError] and a
    file on which [json.load] raises [JSONDecodeError] are loaded as
    a configuration without servers, which gives no client; a file
    on which the load raises another exception gives no
    configuration: the exception leaves [_load_config]. *)
Theorem clients_come_from_enabled_servers
    (init : string → server_cfg → result unit) (c : mcp_config) :
  let entry := λ cl, (server_name cl, sc cl) in
  (∀ cl, cl ∈ get_mcp_tools init c ↔
         entry cl ∈ servers_of c ∧ enabled (sc cl) ≠ Some false
         ∧ init (server_name cl) (sc cl) = Returned tt)
  ∧ entry <$> get_mcp_tools init c `sublist_of` servers_of c
  ∧ ((∀ name cfg, init name cfg = Returned tt) →
     entry <$> get_mcp_tools init c = _enabled_servers c)
  ∧ (∀ f,
       match f with
       | Missing | Unreadable _ | NotJSON _ =>
           _load_config f = Returned (Some [])
           ∧ get_mcp_tools init (Some []) = []
       | LoadRaises etype msg =>
           _load_config f = Raised (Exn (Other etype) msg)
       | Parsed data => _load_config f = Returned data
       end).
Proof.
  intros entry. split; [intros cl; split|split; [|split]].
  - intros (Hin & Hinit)%client_spec. apply enabled_server_spec in Hin as [Hin Hen].
    repeat split; try done. simpl in Hen. unfold is_enabled in Hen.
    intros Hoff. by rewrite Hoff in Hen.
  - intros (Hin & Hen & Hinit). apply client_spec. split; [|done].
    apply enabled_server_spec. split; [done|]. simpl. unfold is_enabled.
    by destruct (enabled (sc cl)) as [[]|].
  - transitivity (_enabled_servers c); [|apply sublist_filter].
    unfold get_mcp_tools. induction (_enabled_servers c) as [|[name cfg] l IH]; [done|].
    simpl. destruct (init name cfg) as [[]|e]; simpl;
      [by apply sublist_skip | by apply sublist_cons].
  - intros Hinit. unfold get_mcp_tools.
    induction (_enabled_servers c) as [|[name cfg] l IH]; [done|].
    simpl. rewrite Hinit. simpl. f_equal. exact IH.
  - by intros [| err | err | etype msg | data].
Qed.

(** X20. [start] and [get_mcp_tools] treat an enabled server without
    a [command] differently. [start] returns when every enabled
    server has a command and raises [KeyError] otherwise, a disabled
    server without one doing no harm. [get_mcp_tools] never looks:
    it creates a client for such a server, and it is the transport of
    that client that raises [KeyError] when the agent starts it.
    When [start] returns, the transport of every client can be
    built. *)
Theorem start_needs_commands (c : mcp_config) :
  (outcome (start c) = Returned tt ↔
   ∀ item, item ∈ servers_of c → is_enabled item.2 = true → is_Some (command item.2))
  ∧ (outcome (start c) = Returned tt
     ∨ outcome (start c) = Raised (Exn (Other "KeyError") "'command'"))
  ∧ (outcome (start c) = Returned tt →
     ∀ init cl, cl ∈ get_mcp_tools init c → ∃ p, transport cl = Returned p)
  ∧ (∀ init item,
       item ∈ servers_of c → is_enabled item.2 = true → command item.2 = None →
       init item.1 item.2 = Returned tt →
       outcome (start c) = Raised (Exn (Other "KeyError") "'command'")
       ∧ ∃ cl, cl ∈ get_mcp_tools init c
               ∧ transport cl = Raised (Exn (Other "KeyError") "'command'")).
Proof.
  assert (outcome (start c) = (announce (_enabled_servers c)).2) as Hout.
  { unfold start, _enabled_servers. by destruct (servers_of c). }
  destruct (announce_spec (_enabled_servers c)) as (Hiff & Hcases & _).
  rewrite Hout.
  assert ((announce (_enabled_servers c)).2 = Returned tt ↔
          ∀ item, item ∈ servers_of c → is_enabled item.2 = true →
                  is_Some (command item.2)) as Hiff'.
  { rewrite Hiff. split.
    - intros Hl item Hin Hen. apply Hl. by apply enabled_server_spec.
    - intros Hl item [Hin Hen]%enabled_server_spec. by apply Hl. }
  split; [exact Hiff'|]. split; [exact Hcases|]. split.
  - intros Hret init cl [Hin _]%client_spec.
    apply enabled_server_spec in Hin as [Hin Hen].
    destruct (proj1 Hiff' Hret _ Hin Hen) as [cmd Hcmd]. simpl in Hcmd.
    unfold transport. rewrite Hcmd. by eexists.
  - intros init item Hin Hen Hcmd Hinit. split.
    + destruct Hcases as [Hret|Hraise]; [|done].
      destruct (proj1 Hiff' Hret _ Hin Hen) as [cmd Hcmd']. congruence.
    + exists {| server_name := item.1; sc := item.2 |}. split.
      * apply client_spec. simpl. split; [|done].
        apply enabled_server_spec. by destruct item.
      * unfold transport. simpl. by rewrite Hcmd.
Qed.

Lemma unique_entry {A} (l : list (string * A)) k a b :
  NoDup l.*1 → (k, a) ∈ l → (k, b) ∈ l → a = b.
Proof.
  induction l as [|[k' a'] l IH]; simpl; [by intros _ ?%elem_of_nil|].
  rewrite NoDup_cons. intros [Hk Hnd] Ha Hb.
  apply elem_of_cons in Ha as [Ha|Ha]; apply elem_of_cons in Hb as [Hb|Hb];
    simplify_eq; try done.
  - destruct Hk. apply list_elem_of_fmap. eexists; split; [|eassumption]; done.
  - destruct Hk. apply list_elem_of_fmap. eexists; split; [|eassumption]; done.
  - by apply IH.
Qed.

(** X21. What [start] reports when it returns. With no [servers]
    entry or an empty one, and so with a missing file, a file whose
    open or read raises [OSError] and a file on which [json.load]
    raises [JSONDecodeError], it reports that no server is configured
    and nothing else; a file on which the load raises another
    exception gives no manager to start: the exception leaves
    [_load_config]. Otherwise every server of the file is reported exactly
    once: as disabled when its entry says so, or announced with its
    command, in the order of the file, when it is enabled. *)
Theorem start_reports_every_server (c : mcp_config) :
  NoDup (servers_of c).*1 →
  outcome (start c) = Returned tt →
  (none_configured (start c) = true ↔ servers_of c = [])
  ∧ (∀ f,
       match f with
       | Missing | Unreadable _ | NotJSON _ =>
           ∃ c', _load_config f = Returned c'
                 ∧ start c'
                   = {| none_configured := true; skipped := ∅; announced := [];
                        outcome := Returned tt |}
       | LoadRaises etype msg =>
           _load_config f = Raised (Exn (Other etype) msg)
       | Parsed data => _load_config f = Returned data
       end)
  ∧ (∀ name cfg, (name, cfg) ∈ servers_of c →
       (name ∈ skipped (start c) ↔ is_enabled cfg = false)
       ∧ ((name, cfg) ∈ _enabled_servers c ↔ ∃ cmd, (name, cmd) ∈ announced (start c))
       ∧ ∀ cmd, (name, cmd) ∈ announced (start c) → command cfg = Some cmd)
  ∧ (announced (start c)).*1 = (_enabled_servers c).*1
  ∧ (∀ name, name ∈ skipped (start c) → name ∉ (announced (start c)).*1).
Proof.
  intros Hnd Hret.
  assert (outcome (start c) = (announce (_enabled_servers c)).2
          ∧ announced (start c) = (announce (_enabled_servers c)).1
          ∧ skipped (start c)
            = list_to_set (servers_of c).*1 ∖ list_to_set (_enabled_servers c).*1)
    as (Hout & Hann & Hskip).
  { unfold start, _enabled_servers. destruct (servers_of c); [|done].
    repeat split. }
  rewrite Hout in Hret.
  destruct (announce_spec (_enabled_servers c)) as (_ & _ & Hlist).
  destruct (Hlist Hret) as [Hlines Hnames]. clear Hlist.
  assert (∀ name cfg, (name, cfg) ∈ servers_of c →
            (name ∈ (_enabled_servers c).*1 ↔ is_enabled cfg = true)) as Hen.
  { intros name cfg Hin. rewrite list_elem_of_fmap. split.
    - intros ([name' cfg'] & -> & [Hin' Hen]%enabled_server_spec). simpl in *.
      by rewrite (unique_entry _ _ _ _ Hnd Hin Hin').
    - intros Hon. exists (name, cfg). split; [done|]. by apply enabled_server_spec. }
  assert (∀ name cmd, (name, cmd) ∈ announced (start c) ↔
            ∃ cfg, (name, cfg) ∈ _enabled_servers c ∧ command cfg = Some cmd)
    as Hannounced.
  { intros name cmd. rewrite Hann, Hlines, list_elem_of_omap. split.
    - intros ([name' cfg] & Hin & Heq). simpl in Heq.
      destruct (command cfg) as [cmd'|] eqn:Hcmd; simpl in Heq; simplify_eq.
      exists cfg. by split.
    - intros (cfg & Hin & Hcmd). exists (name, cfg). split; [done|].
      simpl. by rewrite Hcmd. }
  split; [|split; [|split; [|split]]].
  - unfold start. destruct (servers_of c); by split.
  - intros [| err | err | etype msg | data]; try done; by eexists.
  - intros name cfg Hin. split; [|split].
    + rewrite Hskip, elem_of_difference, !elem_of_list_to_set, (Hen _ _ Hin).
      split.
      * intros [_ Hoff]. by destruct (is_enabled cfg).
      * intros Hoff. split; [apply list_elem_of_fmap; by exists (name, cfg)|].
        congruence.
    + split.
      * intros Hin'.
        destruct (proj1 (proj1 (announce_spec (_enabled_servers c))) Hret _ Hin')
          as [cmd Hcmd].
        exists cmd. apply Hannounced. by exists cfg.
      * intros (cmd & (cfg' & Hin' & _)%Hannounced).
        pose proof Hin' as [Hin'' _]%enabled_server_spec.
        by rewrite (unique_entry _ _ _ _ Hnd Hin Hin'').
    + intros cmd (cfg' & [Hin' _]%enabled_server_spec & Hcmd)%Hannounced.
      by rewrite (unique_entry _ _ _ _ Hnd Hin Hin').
  - by rewrite Hann.
  - intros name. rewrite Hskip, elem_of_difference, !elem_of_list_to_set, Hann, Hnames.
    tauto.
Qed.

End MCP.

Lemma start_needs_commands_witness :
  MCPManager.outcome (MCPManager.start (Some [("files", no_command)]))
  = Raised (Exn (Other "KeyError") "'command'").
Proof.
  destruct (start_needs_commands (Some [("files", no_command)]))
    as (_ & _ & _ & Hraise).
  apply (Hraise (λ _ _, Returned tt) ("files", no_command)); try reflexivity.
  by left.
Defined.

Lemma start_reports_every_server_witness :
  (MCPManager.announced (MCPManager.start two_servers)).*1 = ["files"].
Proof.
  destruct (start_reports_every_server two_servers) as (_ & _ & _ & Hnames & _).
  - apply NoDup_cons. split; [|apply NoDup_singleton].
    intros Hin. apply list_elem_of_singleton in Hin. discriminate.
  - reflexivity.
  - exact Hnames.
Defined.

(** ** Building an agent *)

Section Building.
Import Agent AgentBuild.

Lemma from_request_blank (d : config_dict) :
  from_request (Some d) = ModelConfig_default ↔ blank d.
Proof.
  unfold blank. rewrite !elem_of_cons, !elem_of_nil.
  destruct d as [[p|] [m|] [a|] [r|]]; unfold from_request, ModelConfig_default;
    simpl; split.
  all: try (intros [=]; subst; tauto).
  all: try (intros _; tauto).
  all: intros (Hp & Hm & Ha & Hr); f_equal.
  all: repeat match goal with
              | H : _ ∨ _ |- _ => destruct H
              | H : False |- _ => destruct H
              end; simplify_eq; done.
Qed.

(** X22. The summary of [create_agent] that the endpoints are
    stated with, which decides on the provider only and leaves the
    library constructors to the caller, is sound for a provider
    written in ASCII letters: when the summary raises,
    [create_agent] raises the same [ValueError], before any
    constructor of a library is called; when [create_agent] returns,
    so does the summary; and when no constructor fails and no prompt
    file fails to be read, [create_agent] returns whenever the
    summary does. *)
Theorem handle_model_summarises_create_agent {Handler : Type}
    config max_tokens prompt_file session model_init agent_init
    (h : option Handler) (mc : ModelConfig) (mode_type : string) mcp_tools :
  isascii (or_else (provider mc) (Config.model_provider config)) = true →
  let built :=
    AgentBuild.create_agent config max_tokens prompt_file session model_init
      agent_init h (Some mc) mode_type mcp_tools in
  (∀ e, Agent.create_agent config mc mode_type = Raised e → built = Raised e)
  ∧ (∀ a, built = Returned a → Agent.create_agent config mc mode_type = Returned tt)
  ∧ ((∀ k, session k = Returned tt) →
     (∀ m, model_init m = Returned tt) →
     (∀ f e, prompt_file f ≠ Some (Raised e)) →
     (∀ a, agent_init a = Returned tt) →
     Agent.create_agent config mc mode_type = Returned tt →
     ∃ a, built = Returned a).
Proof.
  intros _ built. subst built.
  unfold AgentBuild.create_agent, AgentBuild.create_model, Agent.create_agent,
    Agent.create_model. simpl.
  case_bool_decide as Hp; (split; [|split]); try done.
  - intros Hs Hm Hf Ha _. rewrite Hs, Hm. unfold _load_system_prompt.
    destruct (prompt_file _) as [[text|e]|] eqn:Hfile.
    + rewrite Ha. by eexists.
    + by destruct (Hf _ _ Hfile).
    + case_bool_decide; rewrite Ha; by eexists.
  - intros e [= <-]. done.
Qed.

Lemma handle_model_summarises_create_agent_witness :
  ∃ a,
    AgentBuild.create_agent (Handler := unit) Config.defaults 2048 (λ _, None)
      (λ _, Returned tt) (λ _, Returned tt) (λ _, Returned tt)
      None (Some ModelConfig_default) "chat" None = Returned a.
Proof.
  apply (handle_model_summarises_create_agent (Handler := unit) Config.defaults 2048
           (λ _, None) (λ _, Returned tt) (λ _, Returned tt) (λ _, Returned tt)
           None ModelConfig_default "chat" None); try done.
Defined.

(** X23. The mode type only chooses between two system prompts:
    [chat] selects the chat prompt and every other string, not
    [draft] alone, selects the writing prompt. An agent built for a
    mode type other than [chat] is the agent built for [draft]. *)
Theorem mode_type_other_than_chat_is_draft {Handler : Type}
    config max_tokens prompt_file session model_init agent_init
    (h : option Handler) (mc : option ModelConfig) (mode_type : string) mcp_tools :
  mode_type ≠ "chat" →
  AgentBuild.create_agent config max_tokens prompt_file session model_init
    agent_init h mc mode_type mcp_tools
  = AgentBuild.create_agent config max_tokens prompt_file session model_init
      agent_init h mc "draft" mcp_tools.
Proof.
  intros Hm. unfold AgentBuild.create_agent, _load_system_prompt.
  by rewrite (bool_decide_eq_false_2 _ Hm).
Qed.

Lemma mode_type_other_than_chat_is_draft_witness :
  AgentBuild.create_agent (Handler := unit) Config.defaults 2048 (λ _, None)
    (λ _, Returned tt) (λ _, Returned tt) (λ _, Returned tt)
    None None "Chat" None
  = AgentBuild.create_agent (Handler := unit) Config.defaults 2048 (λ _, None)
      (λ _, Returned tt) (λ _, Returned tt) (λ _, Returned tt)
      None None "draft" None.
Proof.
  apply (mode_type_other_than_chat_is_draft (Handler := unit)). discriminate.
Defined.

(** X24. An agent is determined by the effective configuration: two
    request configurations with the same effective provider, model,
    profile and region, and the same mode type, give the same
    outcome of [create_agent], an agent made from the same
    arguments or the same exception, although the configurations
    differ as values. *)
Theorem same_effective_tuple_same_agent {Handler : Type}
    config max_tokens prompt_file session model_init agent_init
    (h : option Handler) (mc mc' : ModelConfig) (mode_type mode_type' : string)
    mcp_tools :
  effective_tuple config mc mode_type = effective_tuple config mc' mode_type' →
  AgentBuild.create_agent config max_tokens prompt_file session model_init
    agent_init h (Some mc) mode_type mcp_tools
  = AgentBuild.create_agent config max_tokens prompt_file session model_init
      agent_init h (Some mc') mode_type' mcp_tools.
Proof.
  unfold effective_tuple. intros [= Hp Hm Ha Hr ->].
  unfold AgentBuild.create_agent, AgentBuild.create_model. simpl.
  by rewrite Hp, Hm, Ha, Hr.
Qed.

Lemma same_effective_tuple_same_agent_witness :
  AgentBuild.create_agent (Handler := unit) Config.defaults 2048 (λ _, None)
    (λ _, Returned tt) (λ _, Returned tt) (λ _, Returned tt)
    None (Some ModelConfig_default) "chat" None
  = AgentBuild.create_agent (Handler := unit) Config.defaults 2048 (λ _, None)
      (λ _, Returned tt) (λ _, Returned tt) (λ _, Returned tt)
      None (Some {| provider := "BedRock"; model_id := "";
                    aws_profile := ""; aws_region := "us-west-2" |}) "chat" None.
Proof.
  apply (same_effective_tuple_same_agent (Handler := unit)). reflexivity.
Defined.

(** X25. A request configuration counts as absent exactly when each
    of its four fields is missing or the empty string: it is then
    the default [ModelConfig], and [create_agent] treats that value
    as it treats no configuration at all. *)
Theorem blank_config_is_no_config {Handler : Type}
    config max_tokens prompt_file session model_init agent_init
    (h : option Handler) (d : config_dict) (mode_type : string) mcp_tools :
  (from_request (Some d) = from_request None ↔ blank d)
  ∧ (blank d →
     AgentBuild.create_agent config max_tokens prompt_file session model_init
       agent_init h (Some (from_request (Some d))) mode_type mcp_tools
     = AgentBuild.create_agent config max_tokens prompt_file session model_init
         agent_init h None mode_type mcp_tools).
Proof.
  split; [apply from_request_blank|].
  intros Hd. apply from_request_blank in Hd. by rewrite Hd.
Qed.

Lemma blank_config_is_no_config_witness :
  from_request (Some {| cd_provider := Some ""; cd_model_id := None;
                        cd_aws_profile := Some ""; cd_aws_region := None |})
  = from_request None.
Proof.
  apply (blank_config_is_no_config (Handler := unit) Config.defaults 2048 (λ _, None)
           (λ _, Returned tt) (λ _, Returned tt) (λ _, Returned tt) None
           {| cd_provider := Some ""; cd_model_id := None;
              cd_aws_profile := Some ""; cd_aws_region := None |} "draft" None).
  unfold blank. simpl. rewrite !elem_of_cons. tauto.
Defined.

Lemma or_else_empty (a b : string) : or_else a b = "" ↔ a = "" ∧ b = "".
Proof. unfold or_else. destruct a, b; simpl; split; (intros [? ?] || intros ?); done. Qed.

(** X26. What a model that was built says about its making. Its
    session never carries an empty profile name: the name is left
    out exactly when both the request and the environment have no
    profile, and is otherwise the request's profile or, failing
    that, the environment's. The region, the model identifier and
    the token limit are the effective ones, and the provider that
    was asked for, the request's if it names one, when written in
    ASCII letters, is bedrock up to the case of its letters. *)
Theorem built_model_session config max_tokens session model_init
    (mc : ModelConfig) (m : BedrockModel) :
  isascii (or_else (provider mc) (Config.model_provider config)) = true →
  AgentBuild.create_model config max_tokens session model_init (Some mc) = Returned m →
  profile_name (boto_session m) ≠ Some ""
  ∧ (profile_name (boto_session m) = None ↔
     aws_profile mc = "" ∧ Config.aws_profile config = "")
  ∧ (∀ p, profile_name (boto_session m) = Some p →
          p = effective_aws_profile config mc)
  ∧ region_name (boto_session m) = effective_aws_region config mc
  ∧ bm_model_id m = effective_model_id config mc
  ∧ bm_max_tokens m = max_tokens
  ∧ lower (if truthy (provider mc) then provider mc
           else Config.model_provider config) = "bedrock".
Proof.
  intros _.
  unfold AgentBuild.create_model. simpl. case_bool_decide as Hp; [|done].
  destruct (session _) as [[]|e]; [|done].
  destruct (model_init _) as [[]|e]; [|done].
  intros [= <-]. simpl.
  pose proof (or_else_empty (aws_profile mc) (Config.aws_profile config)) as Hempty.
  unfold effective_aws_profile.
  destruct (truthy (or_else _ _)) eqn:Hpr.
  - apply truthy_nonempty in Hpr.
    repeat split; try done; try congruence; try tauto.
  - apply truthy_empty in Hpr.
    repeat split; try done; try tauto.
Qed.

Lemma built_model_session_witness :
  profile_name
    (boto_session
       {| bm_model_id := "global.anthropic.claude-opus-4-6-v1";
          boto_session := {| region_name := "us-west-2"; profile_name := None |};
          bm_max_tokens := 2048 |}) = None
  ↔ aws_profile ModelConfig_default = "" ∧ Config.aws_profile Config.defaults = "".
Proof.
  apply (built_model_session Config.defaults 2048 (λ _, Returned tt) (λ _, Returned tt)
           ModelConfig_default); reflexivity.
Defined.

(** X27. The tools of an agent of the streaming endpoint: the three
    writing tools first, then one client for each enabled server of
    the MCP configuration whose client could be constructed, in the
    order of the file, and no client of a disabled server. Without a
    configuration file the agent has the three writing tools and
    nothing else; passing no client list and passing an empty one
    are the same. *)
Theorem agent_tools {Handler : Type}
    config max_tokens prompt_file session model_init agent_init
    (h : option Handler) (mc : option ModelConfig) (mode_type : string)
    (init : string → MCPManager.server_cfg → result unit)
    (c : MCPManager.mcp_config) (a : agent_args Handler) :
  AgentBuild.create_agent config max_tokens prompt_file session model_init
    agent_init h mc mode_type (Some (MCPManager.get_mcp_tools init c)) = Returned a →
  tools a = [rewrite_text; fix_grammar; translate_text]
              ++ (provided <$> MCPManager.get_mcp_tools init c)
  ∧ (3 ≤ length (tools a) ≤ 3 + length (MCPManager.servers_of c))%nat
  ∧ (∀ client, provided client ∈ tools a →
       (MCPManager.server_name client, MCPManager.sc client) ∈ MCPManager.servers_of c
       ∧ MCPManager.enabled (MCPManager.sc client) ≠ Some false)
  ∧ (MCPManager.servers_of c = [] →
     tools a = [rewrite_text; fix_grammar; translate_text])
  ∧ AgentBuild.create_agent config max_tokens prompt_file session model_init
      agent_init h mc mode_type None
    = AgentBuild.create_agent config max_tokens prompt_file session model_init
        agent_init h mc mode_type (Some []).
Proof.
  unfold AgentBuild.create_agent.
  assert (match MCPManager.get_mcp_tools init c with
          | [] => []
          | c0 :: l => provided <$> c0 :: l
          end = provided <$> MCPManager.get_mcp_tools init c) as ->
    by (by destruct (MCPManager.get_mcp_tools init c)).
  destruct (AgentBuild.create_model _ _ _ _ _) as [m|e]; [|done].
  destruct (_load_system_prompt _ _) as [text|e]; [|done].
  destruct (agent_init _) as [[]|e] eqn:Hinit; [|done].
  intros [= <-]. cbn [tools].
  pose proof (clients_come_from_enabled_members init c) as (Hcl & Hsub).
  split; [done|]. split; [|split; [|split]].
  - rewrite !length_cons, length_fmap. apply sublist_length in Hsub.
    rewrite length_fmap in Hsub. lia.
  - intros client Hin.
    assert (client ∈ MCPManager.get_mcp_tools init c) as Hin'.
    { rewrite !elem_of_cons in Hin.
      destruct Hin as [|[|[|Hin]]]; try done.
      apply list_elem_of_fmap in Hin as (cl & [= ->] & Hin). done. }
    apply Hcl in Hin'. tauto.
  - intros Hnone. apply sublist_length in Hsub. rewrite length_fmap, Hnone in Hsub.
    destruct (MCPManager.get_mcp_tools init c); [done | simpl in Hsub; lia].
  - done.
Qed.

Lemma agent_tools_witness :
  tools {| model := {| bm_model_id := "global.anthropic.claude-opus-4-6-v1";
                       boto_session := {| region_name := "us-west-2";
                                          profile_name := None |};
                       bm_max_tokens := 2048 |};
           system_prompt := chat_fallback;
           tools := [rewrite_text; fix_grammar; translate_text;
                     provided {| MCPManager.server_name := "files";
                                 MCPManager.sc := files_server |}];
           callback_handler := @null_callback_handler unit |}
  = [rewrite_text; fix_grammar; translate_text]
      ++ (provided <$> MCPManager.get_mcp_tools (λ _ _, Returned tt) two_servers).
Proof.
  apply (agent_tools (Handler := unit) Config.defaults 2048 (λ _, None)
           (λ _, Returned tt) (λ _, Returned tt) (λ _, Returned tt)
           None None "chat" (λ _ _, Returned tt) two_servers).
  reflexivity.
Defined.

End Building.

End BuildProps.
